(** * databooks.affirm: the restricted expression engine

    A shallow embedding of [src/databooks/affirm.py]: the node allow-list
    [_ALLOWED_NODES], the visitor [DatabooksParser] (its constructor,
    [generic_visit], [visit_comprehension], [visit_Attribute], [visit_Name],
    [_get_iter], [safe_eval_ast], [safe_eval]) and the properties of the
    validate-then-evaluate pipeline.

    Python's own machinery is modelled as follows.
    - The classes of the [ast] module are the enumeration [cls] with their
      base class ([base]); [isinstance] walks the base chain, as in Python.
    - A tree is a [node]; a field holding a child without fields of its own
      (an operator, an expression context) holds the child's class.
    - Objects live in a store ([heap]) and are named by their location, so
      that an object can be shared between the caller and the parser.
    - [compile] followed by [eval] is a parameter [py_eval] of the
      development; [eval_expr] is one instance, used to run examples. *)

From Stdlib Require Import ZArith Bool.
From stdpp Require Import gmap strings list fin_maps.

Open Scope string_scope.
Open Scope Z_scope.

(** ** Classes of the [ast] module *)

Inductive cls : Type :=
  (* roots *)
  | ast_AST | ast_mod | ast_stmt | ast_expr | ast_expr_context | ast_boolop
  | ast_operator | ast_unaryop | ast_cmpop | ast_slice
  (* mod, stmt *)
  | ast_Expression | ast_Module | ast_For | ast_Expr | ast_Assign
  (* expr *)
  | ast_BoolOp | ast_NamedExpr | ast_BinOp | ast_UnaryOp | ast_Lambda
  | ast_IfExp | ast_Dict | ast_Set | ast_ListComp | ast_SetComp
  | ast_DictComp | ast_GeneratorExp | ast_Compare | ast_Call | ast_Constant
  | ast_Attribute | ast_Subscript | ast_Starred | ast_Name | ast_List
  | ast_Tuple | ast_Slice | ast_Num | ast_Str
  (* expr_context *)
  | ast_Load | ast_Store | ast_Del
  (* boolop *)
  | ast_And | ast_Or
  (* operator *)
  | ast_Add | ast_Sub | ast_Mult | ast_MatMult | ast_Div | ast_Mod | ast_Pow
  | ast_LShift | ast_RShift | ast_BitOr | ast_BitXor | ast_BitAnd
  | ast_FloorDiv
  (* unaryop *)
  | ast_Invert | ast_Not | ast_UAdd | ast_USub
  (* cmpop *)
  | ast_Eq | ast_NotEq | ast_Lt | ast_LtE | ast_Gt | ast_GtE | ast_Is
  | ast_IsNot | ast_In | ast_NotIn
  (* others *)
  | ast_comprehension | ast_keyword | ast_arguments | ast_arg.

Global Instance cls_eq_dec : EqDecision cls.
Proof. solve_decision. Defined.

(** The direct base class ([__bases__]); [ast.AST] has none in the module. *)
Definition base (c : cls) : option cls :=
  match c with
  | ast_AST => None
  | ast_mod | ast_stmt | ast_expr | ast_expr_context | ast_boolop
  | ast_operator | ast_unaryop | ast_cmpop | ast_slice
  | ast_comprehension | ast_keyword | ast_arguments | ast_arg => Some ast_AST
  | ast_Expression | ast_Module => Some ast_mod
  | ast_For | ast_Expr | ast_Assign => Some ast_stmt
  | ast_BoolOp | ast_NamedExpr | ast_BinOp | ast_UnaryOp | ast_Lambda
  | ast_IfExp | ast_Dict | ast_Set | ast_ListComp | ast_SetComp
  | ast_DictComp | ast_GeneratorExp | ast_Compare | ast_Call | ast_Constant
  | ast_Attribute | ast_Subscript | ast_Starred | ast_Name | ast_List
  | ast_Tuple | ast_Slice => Some ast_expr
  | ast_Num | ast_Str => Some ast_Constant
  | ast_Load | ast_Store | ast_Del => Some ast_expr_context
  | ast_And | ast_Or => Some ast_boolop
  | ast_Add | ast_Sub | ast_Mult | ast_MatMult | ast_Div | ast_Mod | ast_Pow
  | ast_LShift | ast_RShift | ast_BitOr | ast_BitXor | ast_BitAnd
  | ast_FloorDiv => Some ast_operator
  | ast_Invert | ast_Not | ast_UAdd | ast_USub => Some ast_unaryop
  | ast_Eq | ast_NotEq | ast_Lt | ast_LtE | ast_Gt | ast_GtE | ast_Is
  | ast_IsNot | ast_In | ast_NotIn => Some ast_cmpop
  end.

(** The method resolution order of a class: the class and its ancestors.
    No chain of the module is longer than four classes. *)
Fixpoint mro_upto (depth : nat) (c : cls) : list cls :=
  match depth with
  | O => [c]
  | S d => c :: match base c with Some b => mro_upto d b | None => [] end
  end.

Definition mro : cls → list cls := mro_upto 4.

Definition issubclass (c d : cls) : bool := bool_decide (d ∈ mro c).

(** [isinstance(node, classes)] for a node of class [c] and a tuple. *)
Definition isinstance (c : cls) (classes : list cls) : bool :=
  existsb (issubclass c) classes.

Definition _ALLOWED_NODES : list cls :=
  [ ast_Add; ast_And; ast_BinOp; ast_BitAnd; ast_BitOr; ast_BitXor;
    ast_BoolOp; ast_boolop; ast_cmpop; ast_Compare; ast_comprehension;
    ast_Constant; ast_Dict; ast_Eq; ast_Expr; ast_expr; ast_expr_context;
    ast_Expression; ast_For; ast_Gt; ast_GtE; ast_In; ast_Is; ast_IsNot;
    ast_List; ast_ListComp; ast_Load; ast_LShift; ast_Lt; ast_LtE; ast_Mod;
    ast_Name; ast_Not; ast_NotEq; ast_NotIn; ast_Num; ast_operator; ast_Or;
    ast_RShift; ast_Set; ast_Slice; ast_slice; ast_Str; ast_Sub; ast_Tuple;
    ast_UAdd; ast_UnaryOp; ast_unaryop; ast_USub ].

(** ** Trees *)

Scheme All for list.
Scheme All for option.
Scheme All for prod.

Inductive constant : Type :=
  | CInt (z : Z) | CBool (b : bool) | CStr (s : string) | CNone | CEllipsis.

(** One constructor per class with fields, the fields in the order of the
    class's [_fields] (Python 3.9 and later, where a subscript holds an
    expression). [arguments] keeps the two fields that hold nodes for a
    lambda without keyword-only parameters; [arg] keeps its name.
    Assignment expressions, f-strings, [await] and [yield] are left out:
    an evaluation has no effect on the parser's dictionaries. *)
Inductive node : Type :=
  | Expression (body : node)
  | BoolOp (op : cls) (values : list node)
  | BinOp (left : node) (op : cls) (right : node)
  | UnaryOp (op : cls) (operand : node)
  | Lambda (args : node) (body : node)
  | IfExp (test body orelse : node)
  | Dict (keys values : list node)
  | Set_ (elts : list node)
  | ListComp (elt : node) (generators : list node)
  | SetComp (elt : node) (generators : list node)
  | DictComp (key value : node) (generators : list node)
  | GeneratorExp (elt : node) (generators : list node)
  | Compare (left : node) (ops : list cls) (comparators : list node)
  | Call (func : node) (args : list node) (keywords : list node)
  | Constant (value : constant)
  | Attribute (value : node) (attr : string) (ctx : cls)
  | Subscript (value : node) (slice : node) (ctx : cls)
  | Starred (value : node) (ctx : cls)
  | Name (id : string) (ctx : cls)
  | List (elts : list node) (ctx : cls)
  | Tuple (elts : list node) (ctx : cls)
  | Slice (lower upper step : option node)
  | comprehension (target iter : node) (ifs : list node) (is_async : bool)
  | keyword (arg : option string) (value : node)
  | arguments (args : list node) (defaults : list node)
  | arg (arg : string).

(** [type(node)] *)
Definition class_of (n : node) : cls :=
  match n with
  | Expression _ => ast_Expression
  | BoolOp _ _ => ast_BoolOp
  | BinOp _ _ _ => ast_BinOp
  | UnaryOp _ _ => ast_UnaryOp
  | Lambda _ _ => ast_Lambda
  | IfExp _ _ _ => ast_IfExp
  | Dict _ _ => ast_Dict
  | Set_ _ => ast_Set
  | ListComp _ _ => ast_ListComp
  | SetComp _ _ => ast_SetComp
  | DictComp _ _ _ => ast_DictComp
  | GeneratorExp _ _ => ast_GeneratorExp
  | Compare _ _ _ => ast_Compare
  | Call _ _ _ => ast_Call
  | Constant _ => ast_Constant
  | Attribute _ _ _ => ast_Attribute
  | Subscript _ _ _ => ast_Subscript
  | Starred _ _ => ast_Starred
  | Name _ _ => ast_Name
  | List _ _ => ast_List
  | Tuple _ _ => ast_Tuple
  | Slice _ _ _ => ast_Slice
  | comprehension _ _ _ _ => ast_comprehension
  | keyword _ _ => ast_keyword
  | arguments _ _ => ast_arguments
  | arg _ => ast_arg
  end.

(** ** Values and the object store *)

Inductive builtin : Type :=
  | builtin_all | builtin_any | builtin_enumerate | builtin_filter
  | builtin_hasattr | builtin_len | builtin_list | builtin_range
  | builtin_sorted.

Definition __name__ (b : builtin) : string :=
  match b with
  | builtin_all => "all" | builtin_any => "any"
  | builtin_enumerate => "enumerate" | builtin_filter => "filter"
  | builtin_hasattr => "hasattr" | builtin_len => "len"
  | builtin_list => "list" | builtin_range => "range"
  | builtin_sorted => "sorted"
  end.

Definition _ALLOWED_BUILTINS : list builtin :=
  [builtin_all; builtin_any; builtin_enumerate; builtin_filter;
   builtin_hasattr; builtin_len; builtin_list; builtin_range;
   builtin_sorted].

(** A Python object with all its parts. [DatabooksBase fields] is an
    instance of [databooks.data_models.base.DatabooksBase] (or of a
    subclass) with its fields and their values; every other constructor is
    an object that is not such an instance. *)
Inductive value : Type :=
  | VInt (z : Z)
  | VBool (b : bool)
  | VStr (s : string)
  | VNone
  | VEllipsis
  | VList (items : list value)
  | VTuple (items : list value)
  | VSet (items : list value)
  | VDict (items : list (value * value))
  | VBuiltin (f : builtin)
  | DatabooksBase (fields : list (string * value)).

(** Locations of the store. An object given to the parser by its caller
    and the object the parser keeps are the same object exactly when they
    are at the same location; a change to any part of an object is a
    change of what its location holds. *)
Abbreviation loc := nat (only parsing).

(** ** Exceptions and the diagnostics they stand for *)

Inductive exn : Type :=
  (* raised by the visitor *)
  | ValueError_node (c : cls)        (* Invalid node `..`. *)
  | ValueError_name (id : string)    (* Expected `name` to be one of .. *)
  | ValueError_attr_base (c : cls)   (* Expected attribute to be one of
                                        `ast.Name` or `ast.Attribute` *)
  | ValueError_attr (allowed : list string) (attr : string)
                                     (* Expected attribute to be one of .. *)
  | RuntimeError_target (c : cls)    (* Expected `ast.comprehension`'s target
                                        to be `ast.Name` *)
  | KeyError (key : string)          (* self.names[..] *)
  (* raised by ast.parse, compile, eval or iter *)
  | PySyntaxError
  | NameError (id : string)
  | TypeError
  | AttributeError (attr : string)
  | ZeroDivisionError
  | IndexError
  | NotImplementedError              (* outside the fragment of [eval_expr] *)
  (* a name bound to no object: no Python state has one *)
  | SystemError.

Inductive diagnostic : Type :=
  | SyntaxError | DisallowedSyntax | UnknownName
  | MalformedComprehensionTarget | DisallowedAttribute.

(** The diagnostic of the closed taxonomy an exception is, if any. *)
Definition diagnostic_of (e : exn) : option diagnostic :=
  match e with
  | PySyntaxError => Some SyntaxError
  | ValueError_node _ => Some DisallowedSyntax
  | ValueError_name _ => Some UnknownName
  | RuntimeError_target _ => Some MalformedComprehensionTarget
  | ValueError_attr_base _ | ValueError_attr _ _ => Some DisallowedAttribute
  | _ => None
  end.

Inductive res (A : Type) : Type :=
  | Ok (a : A)
  | Raise (e : exn).
Arguments Ok {A} a.
Arguments Raise {A} e.

(** ** The parser object and the world it runs in *)

(** [names] and [scope] are the two dictionaries of a [DatabooksParser];
    [self.builtins] never changes and is the constant [builtins] below.
    [heap] is the object store and [executed] the trees handed to
    [compile]/[eval] so far, oldest first. *)
Record state : Type := State {
  names : gmap string loc;
  scope : gmap string loc;
  heap : list value;
  executed : list node
}.

Definition builtins : gmap string builtin :=
  list_to_map ((λ b, (__name__ b, b)) <$> _ALLOWED_BUILTINS).

(** Computations of the visitor: they may change the state and raise; a
    raised exception keeps the changes made before it. *)
Definition M (A : Type) : Type := state → res A * state.

Global Instance M_ret : MRet M := λ A a st, (Ok a, st).
Global Instance M_bind : MBind M := λ A B k m st,
  match m st with
  | (Ok a, st') => k a st'
  | (Raise e, st') => (Raise e, st')
  end.
Definition raise {A} (e : exn) : M A := λ st, (Raise e, st).
Definition lift {A} (r : res A) : M A := λ st, (r, st).

(** ** Python operations the visitor relies on *)

(** [isinstance(el, DatabooksBase)] *)
Definition is_DatabooksBase (v : value) : bool :=
  match v with DatabooksBase _ => true | _ => false end.

(** [d[k] = v] on a dictionary kept as an association list in insertion
    order: an existing key keeps its place. *)
Fixpoint dict_setitem (k : string) (v : value) (d : list (string * value))
  : list (string * value) :=
  match d with
  | [] => [(k, v)]
  | (k', v') :: d' =>
      if bool_decide (k = k') then (k, v) :: d'
      else (k', v') :: dict_setitem k v d'
  end.

(** [{**a, **b}] *)
Definition dict_merge (a b : list (string * value)) : list (string * value) :=
  fold_left (λ acc kv, dict_setitem kv.1 kv.2 acc) b a.

(** Modelled from the spec: the class [DatabooksBase] is not under src/.
    A structured value exposes a fixed set of declared field names (spec
    3); [dict(el)] is the dictionary of the fields of the model [el] and
    their values. For an object that is not a model the definition gives
    the empty dictionary (never used: see [is_DatabooksBase]). *)
Definition dict (el : value) : list (string * value) :=
  match el with DatabooksBase fields => fields | _ => [] end.

(** [reduce(f, d :: ds)] without an initial value. *)
Definition reduce {A} (f : A → A → A) (d : A) (ds : list A) : A :=
  fold_left f ds d.

(** Modelled from the spec: [databooks.common.get_keys] and
    [DatabooksBase.dict] are not under src/; [get_keys(obj.dict())] is the
    list of the declared field names of [obj] (spec 4.3: an attribute is
    legal iff it is one of that value's declared field names). *)
Definition get_keys (fields : list (string * value)) : list string :=
  fields.*1.

Fixpoint chars (s : string) : list value :=
  match s with
  | EmptyString => []
  | String a s' => VStr (String a EmptyString) :: chars s'
  end.

(** [list(iter(v))]: the elements an iteration over [v] produces. *)
Definition py_iter (v : value) : res (list value) :=
  match v with
  | VList items | VTuple items | VSet items => Ok items
  | VDict items => Ok items.*1
  | VStr s => Ok (chars s)
  | DatabooksBase fields =>
      Ok ((λ kv : string * value, VTuple [VStr kv.1; kv.2]) <$> fields)
  | VInt _ | VBool _ | VNone | VEllipsis | VBuiltin _ => Raise TypeError
  end.

(** ** The visitor *)

(** The two changes a visit makes to the state: a tree is handed to
    [compile] and [eval], and a name of [names] is bound to a new object. *)
Definition log_executed (tree : node) (st : state) : state :=
  State (names st) (scope st) (heap st) (executed st ++ [tree]).

Definition alloc_name (id : string) (v : value) (st : state) : state :=
  State (<[id := length (heap st)]> (names st)) (scope st)
        (heap st ++ [v]) (executed st).

Section Visitor.

(** [compile(tree, filename="", mode="eval")] followed by [eval(exe, g)],
    for the globals [g] without their ["__builtins__"] entry, which is
    always [builtins]. *)
Variable py_eval : node → gmap string value → res value.

(** The objects [self.scope] holds. *)
Definition globals (st : state) : gmap string value :=
  omap (λ l : loc, heap st !! l) (scope st).

Definition compile_eval (tree : node) : M value := λ st,
  (py_eval tree (globals st), log_executed tree st).

(** [self.names[id]] *)
Definition names_getitem (id : string) : M value := λ st,
  match names st !! id with
  | None => (Raise (KeyError id), st)
  | Some l =>
      match heap st !! l with
      | Some v => (Ok v, st)
      | None => (Raise SystemError, st)
      end
  end.

(** [self.names[id] = v] for a new object [v] *)
Definition names_setitem (id : string) (v : value) : M unit := λ st,
  (Ok (), alloc_name id v st).

(** The keys of [{**self.names, **self.builtins}] *)
Definition valid_names (st : state) : gset string :=
  dom (names st) ∪ dom builtins.

Definition check_allowed (c : cls) : M unit :=
  if isinstance c _ALLOWED_NODES then mret ()
  else raise (ValueError_node c).

Fixpoint visit_fields (fields : list (M unit)) : M unit :=
  match fields with
  | [] => mret ()
  | f :: fields' => f;; visit_fields fields'
  end.

(** [generic_visit] on a node of class [c]; [fields] are the visits of
    the fields that hold nodes, in the order of the sorted
    [ast.iter_fields(node)]: a field named [generators] first. *)
Definition generic_visit (c : cls) (fields : list (M unit)) : M unit :=
  check_allowed c;; visit_fields fields.

(** A node without fields (an operator, a context) has no [visit_] method
    of its own. *)
Definition visit_leaf (c : cls) : M unit := generic_visit c [].

(** A field that holds a list of nodes. *)
Definition visit_list (visit : node → M unit) : list node → M unit :=
  fix go (l : list node) : M unit :=
    match l with
    | [] => mret ()
    | item :: l' => visit item;; go l'
    end.

(** A field that holds a node or [None]. *)
Definition visit_opt (visit : node → M unit) (o : option node) : M unit :=
  match o with
  | Some n => visit n
  | None => mret ()
  end.

(** The first lines of [visit_Name] *)
Definition check_Name (id : string) : M unit := λ st,
  if bool_decide (id ∈ valid_names st) then (Ok (), st)
  else (Raise (ValueError_name id), st).

(** The first lines of [visit_Attribute], for [node.value] and
    [node.attr] *)
Definition check_Attribute (value : node) (attr : string) : M unit :=
  match value with
  | Attribute _ _ _ => mret ()
  | Name id _ =>
      obj ← names_getitem id;
      let allowed_attrs :=
        match obj with
        | DatabooksBase fields => get_keys fields
        | _ => []
        end in
      if bool_decide (attr ∈ allowed_attrs) then mret ()
      else raise (ValueError_attr allowed_attrs attr)
  | _ => raise (ValueError_attr_base (class_of value))
  end.

(** [safe_eval_ast], given the visit of its tree *)
Definition safe_eval_ast_of (visit_tree : M unit) (tree : node) : M value :=
  visit_tree;; compile_eval tree.

(** [_get_iter], read to the end as the list comprehension of
    [visit_comprehension] does *)
Definition _get_iter_of (visit_tree : M unit) (tree : node)
  : M (list value) :=
  v ← safe_eval_ast_of visit_tree tree; lift (py_iter v).

(** The lines of [visit_comprehension] before its [generic_visit] *)
Definition bind_target (target : node) (get_iter : M (list value))
  : M unit :=
  match target with
  | Name id _ =>
      iterable ← get_iter;
      let databooks_el := filter (λ el, is_DatabooksBase el) iterable in
      names_setitem id
        match databooks_el with
        | [] => VEllipsis
        | el :: els =>
            DatabooksBase (reduce dict_merge (dict el) (dict <$> els))
        end
  | _ => raise (RuntimeError_target (class_of target))
  end.

(** [NodeVisitor.visit]: [visit_comprehension], [visit_Attribute] and
    [visit_Name] for their classes, [generic_visit] for every other. *)
Fixpoint visit (n : node) : M unit :=
  match n with
  | Expression body => generic_visit ast_Expression [visit body]
  | BoolOp op values =>
      generic_visit ast_BoolOp [visit_leaf op; visit_list visit values]
  | BinOp left_ op right_ =>
      generic_visit ast_BinOp [visit left_; visit_leaf op; visit right_]
  | UnaryOp op operand =>
      generic_visit ast_UnaryOp [visit_leaf op; visit operand]
  | Lambda args body => generic_visit ast_Lambda [visit args; visit body]
  | IfExp test body orelse =>
      generic_visit ast_IfExp [visit test; visit body; visit orelse]
  | Dict keys values =>
      generic_visit ast_Dict [visit_list visit keys; visit_list visit values]
  | Set_ elts => generic_visit ast_Set [visit_list visit elts]
  | ListComp elt generators =>
      generic_visit ast_ListComp [visit_list visit generators; visit elt]
  | SetComp elt generators =>
      generic_visit ast_SetComp [visit_list visit generators; visit elt]
  | DictComp key value generators =>
      generic_visit ast_DictComp
        [visit_list visit generators; visit key; visit value]
  | GeneratorExp elt generators =>
      generic_visit ast_GeneratorExp [visit_list visit generators; visit elt]
  | Compare left_ ops comparators =>
      generic_visit ast_Compare
        [visit left_; visit_fields (visit_leaf <$> ops);
         visit_list visit comparators]
  | Call func args keywords =>
      generic_visit ast_Call
        [visit func; visit_list visit args; visit_list visit keywords]
  | Constant _ => generic_visit ast_Constant []
  | Attribute value attr ctx =>
      check_Attribute value attr;;
      generic_visit ast_Attribute [visit value; visit_leaf ctx]
  | Subscript value slice ctx =>
      generic_visit ast_Subscript [visit value; visit slice; visit_leaf ctx]
  | Starred value ctx =>
      generic_visit ast_Starred [visit value; visit_leaf ctx]
  | Name id ctx =>
      check_Name id;;
      generic_visit ast_Name [visit_leaf ctx]
  | List elts ctx =>
      generic_visit ast_List [visit_list visit elts; visit_leaf ctx]
  | Tuple elts ctx =>
      generic_visit ast_Tuple [visit_list visit elts; visit_leaf ctx]
  | Slice lower upper step =>
      generic_visit ast_Slice
        [visit_opt visit lower; visit_opt visit upper; visit_opt visit step]
  | comprehension target iter ifs is_async =>
      bind_target target
        (_get_iter_of (generic_visit ast_Expression [visit iter])
                      (Expression iter));;
      generic_visit ast_comprehension
        [visit target; visit iter; visit_list visit ifs]
  | keyword _ value => generic_visit ast_keyword [visit value]
  | arguments args defaults =>
      generic_visit ast_arguments
        [visit_list visit args; visit_list visit defaults]
  | arg _ => generic_visit ast_arg []
  end.

Definition safe_eval_ast (ast_tree : node) : M value :=
  visit ast_tree;; compile_eval ast_tree.

Definition _get_iter (n : node) : M (list value) :=
  v ← safe_eval_ast (Expression n); lift (py_iter v).

(** [visit_comprehension], [visit_Attribute] and [visit_Name] as the
    source has them; [visit] runs them on the nodes of their classes
    ([visit_comprehension_eq] and the two lemmas after it). *)
Definition visit_comprehension (target iter : node) (ifs : list node)
  : M unit :=
  bind_target target (_get_iter iter);;
  generic_visit ast_comprehension
    [visit target; visit iter; visit_list visit ifs].

Definition visit_Attribute (value : node) (attr : string) (ctx : cls)
  : M unit :=
  check_Attribute value attr;;
  generic_visit ast_Attribute [visit value; visit_leaf ctx].

Definition visit_Name (id : string) (ctx : cls) : M unit :=
  check_Name id;;
  generic_visit ast_Name [visit_leaf ctx].

(** [ast.parse(src, mode="eval")]: the tree of a source text, or a
    syntax error. *)
Variable ast_parse : string → option node.

Definition safe_eval (src : string) : M value :=
  match ast_parse src with
  | Some ast_tree => safe_eval_ast ast_tree
  | None => raise PySyntaxError
  end.

End Visitor.

(** [DatabooksParser.__init__]. [deepcopy(variables)]: every object the
    caller passes is copied to a new location of the store. *)
Fixpoint deepcopy (variables : list (string * loc))
    (copied : gmap string loc) (h : list value)
  : option (gmap string loc * list value) :=
  match variables with
  | [] => Some (copied, h)
  | (k, l) :: variables' =>
      match h !! l with
      | Some v => deepcopy variables' (<[k := length h]> copied) (h ++ [v])
      | None => None
      end
  end.

(** The state after the constructor ran on [variables], if every variable
    names an object of the store [h]. [scope] holds what [names] holds
    but for the key ["__builtins__"], which [scope] binds to [builtins]. *)
Definition __init__ (variables : list (string * loc)) (h : list value)
  : option state :=
  match deepcopy variables ∅ h with
  | Some (copied, h') =>
      Some (State copied (delete "__builtins__" copied) h' [])
  | None => None
  end.

(** ** An evaluator for a fragment of the expression grammar

    [eval_expr] is the Python semantics of the constructs it covers and
    raises [NotImplementedError] on every other; it is the instance of
    [py_eval] the examples run. Characters are those of [ascii]. *)

Global Instance res_ret : MRet res := λ A a, Ok a.
Global Instance res_bind : MBind res := λ A B k r,
  match r with
  | Ok a => k a
  | Raise e => Raise e
  end.

(** [bool(v)] *)
Definition truthy (v : value) : bool :=
  match v with
  | VInt z => negb (z =? 0)
  | VBool b => b
  | VStr s => negb (bool_decide (s = ""))
  | VNone => false
  | VEllipsis => true
  | VList items | VTuple items | VSet items => negb (bool_decide (items = []))
  | VDict items => negb (bool_decide (items = []))
  | VBuiltin _ => true
  | DatabooksBase _ => true
  end.

(** The integer a [bool] or an [int] is. *)
Definition as_int (v : value) : option Z :=
  match v with
  | VInt z => Some z
  | VBool b => Some (if b then 1 else 0)
  | _ => None
  end.

(** [a == b], for numbers, strings, [None], [...], built-ins, lists and
    tuples of them; [None] for the other objects. *)
Fixpoint py_eq (a b : value) {struct a} : option bool :=
  let seq_eq :=
    fix go (xs ys : list value) {struct xs} : option bool :=
      match xs, ys with
      | [], [] => Some true
      | x :: xs', y :: ys' =>
          match py_eq x y with
          | Some true => go xs' ys'
          | r => r
          end
      | _, _ => Some false
      end in
  match a, b with
  | (VSet _ | VDict _ | DatabooksBase _), _ => None
  | _, (VSet _ | VDict _ | DatabooksBase _) => None
  | (VInt _ | VBool _), (VInt _ | VBool _) =>
      match as_int a, as_int b with
      | Some x, Some y => Some (x =? y)
      | _, _ => None
      end
  | VStr s, VStr t => Some (bool_decide (s = t))
  | VNone, VNone => Some true
  | VEllipsis, VEllipsis => Some true
  | VBuiltin f, VBuiltin f' =>
      Some (bool_decide (__name__ f = __name__ f'))
  | VList xs, VList ys =>
      if bool_decide (length xs = length ys) then seq_eq xs ys else Some false
  | VTuple xs, VTuple ys =>
      if bool_decide (length xs = length ys) then seq_eq xs ys else Some false
  | _, _ => Some false
  end.

Definition unsupported {A} : res A := Raise NotImplementedError.

(** [x in container], for a list or a tuple *)
Fixpoint py_contains (items : list value) (x : value) : res bool :=
  match items with
  | [] => Ok false
  | item :: items' =>
      match py_eq item x with
      | Some true => Ok true
      | Some false => py_contains items' x
      | None => unsupported
      end
  end.

(** One comparison [a op b] *)
Definition py_compare (op : cls) (a b : value) : res value :=
  match op with
  | ast_Eq => match py_eq a b with Some r => Ok (VBool r) | None => unsupported end
  | ast_NotEq =>
      match py_eq a b with Some r => Ok (VBool (negb r)) | None => unsupported end
  | ast_Lt | ast_LtE | ast_Gt | ast_GtE =>
      match as_int a, as_int b with
      | Some x, Some y =>
          Ok (VBool match op with
                    | ast_Lt => x <? y
                    | ast_LtE => x <=? y
                    | ast_Gt => y <? x
                    | _ => y <=? x
                    end)
      | _, _ => unsupported
      end
  | ast_In | ast_NotIn =>
      match b with
      | VList items | VTuple items =>
          r ← py_contains items a;
          Ok (VBool (if bool_decide (op = ast_In) then r else negb r))
      | _ => unsupported
      end
  | ast_Is | ast_IsNot =>
      match a, b with
      | VNone, _ | _, VNone | VEllipsis, _ | _, VEllipsis =>
          let same := match a, b with
                      | VNone, VNone | VEllipsis, VEllipsis => true
                      | _, _ => false
                      end in
          Ok (VBool (if bool_decide (op = ast_Is) then same else negb same))
      | _, _ => unsupported
      end
  | _ => unsupported
  end.

(** [a op b] for a binary operator *)
Definition py_binop (op : cls) (a b : value) : res value :=
  match as_int a, as_int b with
  | Some x, Some y =>
      match op with
      | ast_Add => Ok (VInt (x + y))
      | ast_Sub => Ok (VInt (x - y))
      | ast_Mult => Ok (VInt (x * y))
      | ast_Mod => if y =? 0 then Raise ZeroDivisionError else Ok (VInt (x `mod` y))
      | ast_FloorDiv =>
          if y =? 0 then Raise ZeroDivisionError else Ok (VInt (x `div` y))
      | _ => unsupported
      end
  | _, _ =>
      match op, a, b with
      | ast_Add, VList xs, VList ys => Ok (VList (xs ++ ys))
      | ast_Add, VTuple xs, VTuple ys => Ok (VTuple (xs ++ ys))
      | ast_Add, VStr s, VStr t => Ok (VStr (s +:+ t))
      | _, _, _ => unsupported
      end
  end.

Definition py_unaryop (op : cls) (a : value) : res value :=
  match op with
  | ast_Not => Ok (VBool (negb (truthy a)))
  | ast_USub => match as_int a with Some x => Ok (VInt (- x)) | None => unsupported end
  | ast_UAdd => match as_int a with Some x => Ok (VInt x) | None => unsupported end
  | ast_Invert =>
      match as_int a with Some x => Ok (VInt (- x - 1)) | None => unsupported end
  | _ => unsupported
  end.

(** [v[i]] for a list or a tuple and an integer *)
Definition py_getitem (v i : value) : res value :=
  match v, as_int i with
  | (VList items | VTuple items), Some z =>
      let n := Z.of_nat (length items) in
      let k := if z <? 0 then z + n else z in
      if (k <? 0) || (n <=? k) then Raise IndexError
      else match items !! Z.to_nat k with
           | Some x => Ok x
           | None => Raise IndexError
           end
  | _, _ => unsupported
  end.

Fixpoint py_all (items : list value) : bool :=
  match items with
  | [] => true
  | x :: items' => if truthy x then py_all items' else false
  end.

Fixpoint py_any (items : list value) : bool :=
  match items with
  | [] => false
  | x :: items' => if truthy x then true else py_any items'
  end.

(** The call of a built-in on positional arguments *)
Definition py_call (f : value) (args : list value) : res value :=
  match f, args with
  | VBuiltin builtin_len, [(VList items | VTuple items | VSet items)] =>
      Ok (VInt (Z.of_nat (length items)))
  | VBuiltin builtin_len, [VDict items] => Ok (VInt (Z.of_nat (length items)))
  | VBuiltin builtin_all, [v] => items ← py_iter v; Ok (VBool (py_all items))
  | VBuiltin builtin_any, [v] => items ← py_iter v; Ok (VBool (py_any items))
  | VBuiltin builtin_list, [v] => items ← py_iter v; Ok (VList items)
  | _, _ => unsupported
  end.

Section Eval_helpers.
Variable eval : node → res value.

(** The values of a list of expressions, left to right *)
Definition eval_list : list node → res (list value) :=
  fix go (l : list node) : res (list value) :=
    match l with
    | [] => Ok []
    | n :: l' => v ← eval n; vs ← go l'; Ok (v :: vs)
    end.

(** [v1 and v2 and ..] ([stop_on = false]) and [v1 or v2 or ..]
    ([stop_on = true]): the first operand whose truth value is [stop_on],
    or the last operand. *)
Definition eval_boolop (stop_on : bool) : list node → res value :=
  fix go (l : list node) : res value :=
    match l with
    | [] => unsupported
    | [n] => eval n
    | n :: l' =>
        v ← eval n;
        if bool_decide (truthy v = stop_on) then Ok v else go l'
    end.

(** [left op1 c1 op2 c2 ..]: comparisons are chained with [and] and a
    comparator is evaluated once. *)
Definition eval_compare : value → list cls → list node → res value :=
  fix go (left_ : value) (ops : list cls) (comparators : list node)
      {struct comparators} : res value :=
    match ops, comparators with
    | [op], [c] => right_ ← eval c; py_compare op left_ right_
    | op :: ops', c :: comparators' =>
        right_ ← eval c;
        r ← py_compare op left_ right_;
        if truthy r then go right_ ops' comparators' else Ok r
    | _, _ => unsupported
    end.
End Eval_helpers.

(** The conditions of a [for] clause: all true, tested left to right *)
Definition eval_ifs (eval : node → res value) : list node → res bool :=
  fix go (ifs : list node) : res bool :=
    match ifs with
    | [] => Ok true
    | c :: ifs' => v ← eval c; if truthy v then go ifs' else Ok false
    end.

(** A name is looked up in the enclosing comprehensions, innermost first,
    then in the globals, then in the built-ins. *)
Definition lookup_name (g : gmap string value) (env : list (string * value))
    (id : string) : res value :=
  match list_find (λ kv, kv.1 = id) env with
  | Some (_, (_, v)) => Ok v
  | None =>
      match g !! id with
      | Some v => Ok v
      | None =>
          match builtins !! id with
          | Some f => Ok (VBuiltin f)
          | None => Raise (NameError id)
          end
      end
  end.

Fixpoint eval_expr (g : gmap string value) (n : node)
    (env : list (string * value)) {struct n} : res value :=
  match n with
  | Expression body => eval_expr g body env
  | Constant c =>
      Ok match c with
         | CInt z => VInt z
         | CBool b => VBool b
         | CStr s => VStr s
         | CNone => VNone
         | CEllipsis => VEllipsis
         end
  | Name id ast_Load => lookup_name g env id
  | List elts ast_Load =>
      vs ← eval_list (λ e, eval_expr g e env) elts; Ok (VList vs)
  | Tuple elts ast_Load =>
      vs ← eval_list (λ e, eval_expr g e env) elts; Ok (VTuple vs)
  | BoolOp ast_And values => eval_boolop (λ e, eval_expr g e env) false values
  | BoolOp ast_Or values => eval_boolop (λ e, eval_expr g e env) true values
  | BinOp left_ op right_ =>
      a ← eval_expr g left_ env; b ← eval_expr g right_ env; py_binop op a b
  | UnaryOp op operand => a ← eval_expr g operand env; py_unaryop op a
  | IfExp test body orelse =>
      t ← eval_expr g test env;
      if truthy t then eval_expr g body env else eval_expr g orelse env
  | Compare left_ ops comparators =>
      a ← eval_expr g left_ env;
      eval_compare (λ e, eval_expr g e env) a ops comparators
  | Attribute value attr ast_Load =>
      v ← eval_expr g value env;
      match v with
      | DatabooksBase fields =>
          match list_find (λ kv, kv.1 = attr) fields with
          | Some (_, (_, x)) => Ok x
          | None => unsupported
          end
      | _ => unsupported
      end
  | Subscript value slice ast_Load =>
      v ← eval_expr g value env; i ← eval_expr g slice env; py_getitem v i
  | Call func args [] =>
      f ← eval_expr g func env;
      vs ← eval_list (λ e, eval_expr g e env) args;
      py_call f vs
  | ListComp elt generators =>
      vs ← (fix clauses (gens : list node) (env : list (string * value))
                {struct gens} : res (list value) :=
              match gens with
              | [] => v ← eval_expr g elt env; Ok [v]
              | comprehension (Name id ast_Store) iter ifs false :: gens' =>
                  it ← eval_expr g iter env;
                  items ← py_iter it;
                  (fix each (items : list value) : res (list value) :=
                     match items with
                     | [] => Ok []
                     | x :: items' =>
                         let env' := (id, x) :: env in
                         c ← eval_ifs (λ e, eval_expr g e env') ifs;
                         out ← match c with
                               | true => clauses gens' env'
                               | false => Ok []
                               end;
                         rest ← each items';
                         Ok (out ++ rest)%list
                     end) items
              | _ => unsupported
              end) generators env;
      Ok (VList vs)
  | _ => unsupported
  end.

(** [eval_expr] as a [py_eval] *)
Definition eval_fragment (tree : node) (g : gmap string value) : res value :=
  eval_expr g tree [].

(** ** The function [affirm]

    [nb] is the notebook [JupyterNotebook.parse_file(nb_path)] returned
    and a [Recipe] of [exprs] is its source text [src]; the calls of the
    logger, which have no part in the result, are left out. *)

(** [obj.name] for a name that no class of Python or of pydantic defines:
    the field of a model, an [AttributeError] on every other object. *)
Definition py_getattr (obj : value) (name : string) : res value :=
  match obj with
  | DatabooksBase fields =>
      match list_find (λ kv : string * value, kv.1 = name) fields with
      | Some (_, (_, x)) => Ok x
      | None => Raise (AttributeError name)
      end
  | _ => Raise (AttributeError name)
  end.

(** [v == t] for a string [t] *)
Definition py_eq_str (v : value) (t : string) : bool :=
  match v with
  | VStr s => bool_decide (s = t)
  | _ => false
  end.

(** [c.cell_type == t] *)
Definition cell_type_is (t : string) (c : value) : res bool :=
  v ← py_getattr c "cell_type"; Ok (py_eq_str v t).

(** [c.cell_type == "code" and c.execution_count is not None] *)
Definition is_executed (c : value) : res bool :=
  is_code ← cell_type_is "code" c;
  match is_code with
  | true =>
      v ← py_getattr c "execution_count";
      Ok (match v with VNone => false | _ => true end)
  | false => Ok false
  end.

(** [[c for c in cells if test(c)]] *)
Fixpoint filter_cells (test : value → res bool) (cells : list value)
  : res (list value) :=
  match cells with
  | [] => Ok []
  | c :: cells' =>
      keep ← test c;
      cs ← filter_cells test cells';
      Ok (match keep with true => c :: cs | false => cs end)
  end.

(** [[c for c in nb.cells if test(c)]] *)
Definition cells_where (test : value → res bool) (nb : value)
  : res (list value) :=
  cells ← py_getattr nb "cells";
  cs ← py_iter cells;
  filter_cells test cs.

(** The dictionary [variables] of [affirm], in the order of its display *)
Definition affirm_variables (nb : value) : res (list (string * value)) :=
  raw_cells ← cells_where (cell_type_is "raw") nb;
  markdown_cells ← cells_where (cell_type_is "markdown") nb;
  code_cells ← cells_where (cell_type_is "code") nb;
  exec_cells ← cells_where is_executed nb;
  Ok [("nb", nb); ("raw_cells", VList raw_cells);
      ("markdown_cells", VList markdown_cells);
      ("code_cells", VList code_cells); ("exec_cells", VList exec_cells)].

(** The parser made from keyword arguments whose objects are the whole
    store of the caller: the object of the i-th argument is at location
    i. *)
Definition DatabooksParser (variables : list (string * value))
  : option state :=
  __init__ (imap (λ i kv, (kv.1, i)) variables) variables.*2.

Section Affirm.
Variable py_eval : node → gmap string value → res value.
Variable ast_parse : string → option node.

(** The list [is_ok]: every expression is evaluated by the one parser,
    in order, and its value is cast to [bool]. *)
Fixpoint is_ok (exprs : list string) : M (list bool) :=
  match exprs with
  | [] => mret []
  | expr :: exprs' =>
      v ← safe_eval py_eval ast_parse expr;
      oks ← is_ok exprs';
      mret (truthy v :: oks)
  end.

Definition affirm (nb : value) (exprs : list string) : res bool :=
  variables ← affirm_variables nb;
  match DatabooksParser variables with
  | Some databooks_parser =>
      oks ← (is_ok exprs databooks_parser).1;
      Ok (forallb id oks)
  | None => Raise SystemError
  end.

End Affirm.

(** ** Measures of a tree *)

(** The classes of the fields of a node that hold a node without fields. *)
Definition leaves (n : node) : list cls :=
  match n with
  | BoolOp op _ | BinOp _ op _ | UnaryOp op _ => [op]
  | Compare _ ops _ => ops
  | Attribute _ _ ctx | Subscript _ _ ctx | Starred _ ctx | Name _ ctx
  | List _ ctx | Tuple _ ctx => [ctx]
  | _ => []
  end.

(** Every node of a tree, the root first. *)
Fixpoint subnodes (n : node) : list node :=
  n :: match n with
       | Expression body => subnodes body
       | BoolOp _ values => values ≫= subnodes
       | BinOp left_ _ right_ => subnodes left_ ++ subnodes right_
       | UnaryOp _ operand => subnodes operand
       | Lambda args body => subnodes args ++ subnodes body
       | IfExp test body orelse =>
           subnodes test ++ subnodes body ++ subnodes orelse
       | Dict keys values => (keys ≫= subnodes) ++ (values ≫= subnodes)
       | Set_ elts => elts ≫= subnodes
       | ListComp elt generators | SetComp elt generators
       | GeneratorExp elt generators =>
           (generators ≫= subnodes) ++ subnodes elt
       | DictComp key value generators =>
           (generators ≫= subnodes) ++ subnodes key ++ subnodes value
       | Compare left_ _ comparators =>
           subnodes left_ ++ (comparators ≫= subnodes)
       | Call func args keywords =>
           subnodes func ++ (args ≫= subnodes) ++ (keywords ≫= subnodes)
       | Constant _ => []
       | Attribute value _ _ => subnodes value
       | Subscript value slice _ => subnodes value ++ subnodes slice
       | Starred value _ => subnodes value
       | Name _ _ => []
       | List elts _ | Tuple elts _ => elts ≫= subnodes
       | Slice lower upper step =>
           from_option subnodes [] lower ++ from_option subnodes [] upper
           ++ from_option subnodes [] step
       | comprehension target iter ifs _ =>
           subnodes target ++ subnodes iter ++ (ifs ≫= subnodes)
       | keyword _ value => subnodes value
       | arguments args defaults =>
           (args ≫= subnodes) ++ (defaults ≫= subnodes)
       | arg _ => []
       end%list.

(** The class of every node of a tree, those without fields included. *)
Definition classes (n : node) : list cls :=
  subnodes n ≫= λ m, class_of m :: leaves m.

(** What a node binds when it is visited: for a [comprehension] whose
    target is a name, the name and the iterable expression. *)
Definition binder (n : node) : list (string * node) :=
  match n with
  | comprehension (Name id _) iter _ _ => [(id, iter)]
  | _ => []
  end.

(** The loop variables of a tree with their iterables. *)
Definition binders (n : node) : list (string * node) := subnodes n ≫= binder.

(** The number of nodes with fields of a tree. *)
Definition size (n : node) : nat := length (subnodes n).

(** ** Properties of computations *)

Open Scope nat_scope.

(** A computation that keeps a property of the state, whether it returns
    or raises *)
Definition preserves {A} (I : state → Prop) (m : M A) : Prop :=
  ∀ st, I st → I (m st).2.

(** The loop variable of a node, if it binds one, and its iterable are in
    [Bd]. *)
Definition bound_ok (Bd : string → node → Prop) (m : node) : Prop :=
  ∀ id it, (id, it) ∈ binder m → Bd id it.

(** Two runs of one computation from related states *)
Definition related {A} (R : state → state → Prop) (m : M A) : Prop :=
  ∀ st1 st2, R st1 st2 → (m st1).1 = (m st2).1 ∧ R (m st1).2 (m st2).2.

(** A computation that raises from every state of [I] *)
Definition fails_from {A} (I : state → Prop) (m : M A) : Prop :=
  ∀ st, I st → ∃ e, (m st).1 = Raise e.

(** Every name of the two dictionaries is bound to an object of the
    store. *)
Definition well_formed (st : state) : Prop :=
  (∀ id l, names st !! id = Some l → l < length (heap st))
  ∧ (∀ id l, scope st !! id = Some l → l < length (heap st)).

(** Two states with the same dictionaries and the same store *)
Definition same_objects (st1 st2 : state) : Prop :=
  names st1 = names st2 ∧ scope st1 = scope st2 ∧ heap st1 = heap st2.

(** The objects a parser can reach are at the locations [n0] and beyond. *)
Definition private (n0 : nat) (st : state) : Prop :=
  n0 ≤ length (heap st)
  ∧ (∀ id l, names st !! id = Some l → n0 ≤ l)
  ∧ (∀ id l, scope st !! id = Some l → n0 ≤ l).

(** Two states that differ in the objects below [n0] only *)
Definition agree (n0 : nat) (st1 st2 : state) : Prop :=
  names st1 = names st2 ∧ scope st1 = scope st2
  ∧ executed st1 = executed st2
  ∧ length (heap st1) = length (heap st2)
  ∧ (∀ l, n0 ≤ l → heap st1 !! l = heap st2 !! l)
  ∧ private n0 st1.

(** A caller that evaluates several source texts in turn with one parser,
    catching the exceptions: the results, in order. *)
Fixpoint eval_all (py_eval : node → gmap string value → res value)
    (ast_parse : string → option node) (srcs : list string) (st : state)
  : list (res value) :=
  match srcs with
  | [] => []
  | src :: srcs' =>
      (safe_eval py_eval ast_parse src st).1
      :: eval_all py_eval ast_parse srcs'
           (safe_eval py_eval ast_parse src st).2
  end.

(** A computation that, from a state of [I], keeps [I] and raises only
    exceptions of [Q] *)
Definition raises_only {A} (I : state → Prop) (Q : exn → Prop) (m : M A)
  : Prop :=
  ∀ st, I st → I (m st).2 ∧ ∀ e, (m st).1 = Raise e → Q e.

(** The exceptions of the validation of [tree] by a parser whose scope
    holds the objects [g]: the four [ValueError]s and the [RuntimeError]
    of the visitor, the [KeyError] of [self.names[..]], and what the
    evaluation of the iterable of a generator of [tree] raises. *)
Inductive validation_exception
    (py_eval : node → gmap string value → res value)
    (tree : node) (g : gmap string value) : exn → Prop :=
  | invalid_node c :
      isinstance c _ALLOWED_NODES = false →
      validation_exception py_eval tree g (ValueError_node c)
  | invalid_name id :
      validation_exception py_eval tree g (ValueError_name id)
  | invalid_attribute_base c :
      validation_exception py_eval tree g (ValueError_attr_base c)
  | invalid_attribute allowed attr :
      validation_exception py_eval tree g (ValueError_attr allowed attr)
  | invalid_target c :
      validation_exception py_eval tree g (RuntimeError_target c)
  | missing_key id :
      validation_exception py_eval tree g (KeyError id)
  | iterable_raises id it e :
      (id, it) ∈ binders tree →
      py_eval (Expression it) g = Raise e →
      validation_exception py_eval tree g e
  | not_iterable id it :
      (id, it) ∈ binders tree →
      validation_exception py_eval tree g TypeError.

(** What the visit of the one node [n] checks in the state [st]: the
    class of the node and the classes of its fields without fields, the
    identifier of a name and the first attribute of a name. *)
Definition node_ok (st : state) (n : node) : bool :=
  isinstance (class_of n) _ALLOWED_NODES
  && forallb (λ c, isinstance c _ALLOWED_NODES) (leaves n)
  && match n with
     | Name id _ => bool_decide (id ∈ valid_names st)
     | Attribute (Name id _) attr _ =>
         match names_getitem id st with
         | (Ok (DatabooksBase fields), _) =>
             bool_decide (attr ∈ get_keys fields)
         | _ => false
         end
     | Attribute (Attribute _ _ _) _ _ => true
     | Attribute _ _ _ => false
     | _ => true
     end.

(** ** Inputs of the examples *)

(** The parser [DatabooksParser()] without variables. *)
Definition empty_parser : state := State ∅ ∅ [] [].

(** The tree of [len(items)] *)
Definition len_items : node :=
  Expression (Call (Name "len" ast_Load) [Name "items" ast_Load] []).

(** A notebook cell with one field *)
Definition cell_code : value := DatabooksBase [("cell_type", VStr "code")].

(** A parser whose one variable [mixed] is the list [[cell_code, 1]] *)
Definition mixed_parser : state :=
  State {["mixed" := 0%nat]} {["mixed" := 0%nat]}
        [VList [cell_code; VInt 1]] [].

(** The tree of [(x.f, [x for x in items])] *)
Definition x_f_and_comprehension : node :=
  Expression
    (Tuple [Attribute (Name "x" ast_Load) "f" ast_Load;
            ListComp (Name "x" ast_Load)
              [comprehension (Name "x" ast_Store) (Name "items" ast_Load)
                 [] false]] ast_Load).

(** A parser for the one source text [x > 3] *)
Definition parse_x_gt_3 (src : string) : option node :=
  if bool_decide (src = "x > 3")
  then Some (Expression
               (Compare (Name "x" ast_Load) [ast_Gt] [Constant (CInt 3)]))
  else None.

(** A parser object whose variable [x] is 5 *)
Definition x_is_5 : state := State {["x" := 0]} {["x" := 0]} [VInt 5] [].

(** A parser for the one source text [x] *)
Definition parse_x (src : string) : option node :=
  if bool_decide (src = "x") then Some (Expression (Name "x" ast_Load))
  else None.

(** The parser made from the variable [x], the caller's list [[1]] at
    location 0: the parser's copy is at location 1. *)
Definition copied_parser : state :=
  State {["x" := 1]} {["x" := 1]} [VList [VInt 1]; VList [VInt 1]] [].

(** A markdown cell, a code cell that has not been executed and one that
    has *)
Definition cell_markdown : value :=
  DatabooksBase [("cell_type", VStr "markdown")].

Definition cell_unexecuted : value :=
  DatabooksBase [("cell_type", VStr "code"); ("execution_count", VNone)].

Definition cell_executed : value :=
  DatabooksBase [("cell_type", VStr "code"); ("execution_count", VInt 1)].

(** A notebook of the three cells *)
Definition three_cells : value :=
  DatabooksBase
    [("cells", VList [cell_markdown; cell_unexecuted; cell_executed])].

(** A parser for the source texts [len(exec_cells) > 0] and [x] *)
Definition parse_checks (src : string) : option node :=
  if bool_decide (src = "len(exec_cells) > 0")
  then Some (Expression
               (Compare (Call (Name "len" ast_Load)
                           [Name "exec_cells" ast_Load] [])
                  [ast_Gt] [Constant (CInt 0)]))
  else parse_x src.

(** * Reasoning about visits

    Three facts are proved once for every visit, by induction on the tree:
    a property of the state that the two state changes keep is kept
    ([visit_preserves]); two runs from related states stay related
    ([visit_related]); a tree with a node whose visit raises is itself
    rejected ([visit_fails]). *)

Lemma list_all_Forall {A} (P : A → Prop) (l : list A) :
  list_all A P l → Forall P l.
Proof. induction 1; constructor; auto. Qed.

Lemma option_all_from_option {A} (P : A → Prop) (o : option A) :
  option_all A P o → from_option P True o.
Proof. destruct 1; simpl; auto. Qed.

Lemma Forall_subnodes (Q P : node → Prop) (l : list node) :
  Forall (λ n, (∀ m, m ∈ subnodes n → Q m) → P n) l →
  (∀ m, m ∈ l ≫= subnodes → Q m) → Forall P l.
Proof.
  intros H HQ. apply Forall_forall. intros n Hn.
  rewrite Forall_forall in H. apply H; [done|].
  intros m Hm. apply HQ, list_elem_of_bind. eauto.
Qed.

Lemma from_option_subnodes (Q P : node → Prop) (o : option node) :
  from_option (λ n, (∀ m, m ∈ subnodes n → Q m) → P n) True o →
  (∀ m, m ∈ from_option subnodes [] o → Q m) → from_option P True o.
Proof. destruct o; simpl; auto. Qed.

Ltac in_subnodes :=
  simpl; repeat (rewrite elem_of_cons || rewrite elem_of_app); tauto.

Section Preserves.
Context {A B : Type} (I : state → Prop).

Lemma preserves_ret (a : A) : preserves I (mret a).
Proof. intros st H. exact H. Qed.

Lemma preserves_raise (e : exn) : preserves I (@raise A e).
Proof. intros st H. exact H. Qed.

Lemma preserves_lift (r : res A) : preserves I (lift r).
Proof. intros st H. exact H. Qed.

Lemma preserves_bind (m : M A) (k : A → M B) :
  preserves I m → (∀ a, preserves I (k a)) → preserves I (m ≫= k).
Proof.
  intros Hm Hk st H. unfold mbind, M_bind.
  specialize (Hm st H). destruct (m st) as [[a|e] st']; simpl in *; auto.
  by apply Hk.
Qed.
End Preserves.

Section Visit_preserves.
Variable py_eval : node → gmap string value → res value.
Variable I : state → Prop.
Variable Bd : string → node → Prop.
Hypothesis I_log : ∀ id it st,
  Bd id it → I st → I (log_executed (Expression it) st).
Hypothesis I_alloc : ∀ id it v st, Bd id it → I st → I (alloc_name id v st).

Lemma preserves_check_allowed c : preserves I (check_allowed c).
Proof. unfold check_allowed. destruct (isinstance _ _); intros st H; exact H. Qed.

Lemma preserves_visit_fields fields :
  Forall (preserves I) fields → preserves I (visit_fields fields).
Proof.
  induction 1; simpl; [apply preserves_ret|].
  apply preserves_bind; auto.
Qed.

Lemma preserves_generic_visit c fields :
  Forall (preserves I) fields → preserves I (generic_visit c fields).
Proof.
  intros H. apply preserves_bind; [apply preserves_check_allowed|].
  intros _. by apply preserves_visit_fields.
Qed.

Lemma preserves_visit_leaf c : preserves I (visit_leaf c).
Proof. apply preserves_generic_visit, Forall_nil_2. Qed.

Lemma preserves_visit_leaves ops :
  preserves I (visit_fields (visit_leaf <$> ops)).
Proof.
  apply preserves_visit_fields, Forall_fmap, Forall_forall.
  intros c _. apply preserves_visit_leaf.
Qed.

Lemma preserves_check_Name id : preserves I (check_Name id).
Proof. intros st H. unfold check_Name. by case_bool_decide. Qed.

Lemma preserves_names_getitem id : preserves I (names_getitem id).
Proof.
  intros st H. unfold names_getitem.
  destruct (names st !! id) as [l|]; [|done]. by destruct (heap st !! l).
Qed.

Lemma preserves_check_Attribute value attr :
  preserves I (check_Attribute value attr).
Proof.
  destruct value; try apply preserves_raise; [apply preserves_ret|].
  simpl. apply preserves_bind; [apply preserves_names_getitem|].
  intros obj. case_bool_decide; [apply preserves_ret|apply preserves_raise].
Qed.

Lemma preserves_bind_target target iter visit_iter :
  (∀ id ctx, target = Name id ctx → Bd id iter) →
  preserves I visit_iter →
  preserves I (bind_target target
    (_get_iter_of py_eval (generic_visit ast_Expression [visit_iter])
                  (Expression iter))).
Proof.
  intros Hb Hv. destruct target; try apply preserves_raise.
  simpl. apply preserves_bind.
  - apply preserves_bind; [|intros; apply preserves_lift].
    apply preserves_bind.
    + apply preserves_generic_visit, Forall_cons_2; [done|apply Forall_nil_2].
    + intros _ st H. simpl. apply (I_log id); [|done]. by eapply Hb.
  - intros iterable st H. simpl. apply (I_alloc id iter); [|done]. by eapply Hb.
Qed.

Lemma preserves_visit_list (l : list node) :
  Forall (λ n, preserves I (visit py_eval n)) l →
  preserves I (visit_list (visit py_eval) l).
Proof.
  induction 1; simpl; [apply preserves_ret|].
  apply preserves_bind; auto.
Qed.

Lemma preserves_visit_opt (o : option node) :
  from_option (λ n, preserves I (visit py_eval n)) True o →
  preserves I (visit_opt (visit py_eval) o).
Proof. destruct o; simpl; [done|]. intros _. apply preserves_ret. Qed.

Lemma visit_preserves n :
  (∀ m, m ∈ subnodes n → bound_ok Bd m) → preserves I (visit py_eval n).
Proof.
  induction n using node_ind; intros HG; simpl.
  all: repeat match goal with
       | H : list_all _ _ _ |- _ => apply list_all_Forall in H
       | H : option_all _ _ _ |- _ => apply option_all_from_option in H
       end.
  all: try (apply preserves_bind;
            [first [ apply preserves_check_Name
                   | apply preserves_check_Attribute
                   | apply preserves_bind_target;
                     [intros id ctx ->; apply (HG _ (list_elem_of_here _ _));
                      simpl; apply list_elem_of_here|] ]
            | intros _]).
  all: try apply preserves_generic_visit; repeat apply Forall_cons_2;
    try apply Forall_nil_2.
  all: try apply preserves_visit_leaf; try apply preserves_visit_leaves.
  all: try (apply preserves_visit_list; eapply Forall_subnodes; [eassumption|];
            intros ? ?; apply HG; in_subnodes).
  all: try (apply preserves_visit_opt; eapply from_option_subnodes; [eassumption|];
            intros ? ?; apply HG; in_subnodes).
  all: try (match goal with
            | IH : _ → preserves _ (visit _ ?n) |- preserves _ (visit _ ?n) =>
                apply IH; intros ? ?; apply HG; in_subnodes
            end).
Qed.
End Visit_preserves.

Section Related.
Context {A B : Type} (R : state → state → Prop).

Lemma related_ret (a : A) : related R (mret a).
Proof. intros st1 st2 H. by split. Qed.

Lemma related_raise (e : exn) : related R (@raise A e).
Proof. intros st1 st2 H. by split. Qed.

Lemma related_lift (r : res A) : related R (lift r).
Proof. intros st1 st2 H. by split. Qed.

Lemma related_bind (m : M A) (k : A → M B) :
  related R m → (∀ a, related R (k a)) → related R (m ≫= k).
Proof.
  intros Hm Hk st1 st2 H. unfold mbind, M_bind.
  destruct (Hm st1 st2 H) as [Hr HR].
  destruct (m st1) as [[a|e] st1'], (m st2) as [[a'|e'] st2'];
    simpl in *; simplify_eq; auto.
  by apply Hk.
Qed.
End Related.

Section Visit_related.
Variable py_eval : node → gmap string value → res value.
Variable R : state → state → Prop.
Hypothesis R_names_getitem : ∀ id, related R (names_getitem id).
Hypothesis R_check_Name : ∀ id, related R (check_Name id).
Hypothesis R_compile_eval : ∀ tree, related R (compile_eval py_eval tree).
Hypothesis R_names_setitem : ∀ id v, related R (names_setitem id v).

Lemma related_check_allowed c : related R (check_allowed c).
Proof.
  unfold check_allowed.
  destruct (isinstance _ _); [apply related_ret|apply related_raise].
Qed.

Lemma related_visit_fields fields :
  Forall (related R) fields → related R (visit_fields fields).
Proof.
  induction 1; simpl; [apply related_ret|].
  apply related_bind; auto.
Qed.

Lemma related_generic_visit c fields :
  Forall (related R) fields → related R (generic_visit c fields).
Proof.
  intros H. apply related_bind; [apply related_check_allowed|].
  intros _. by apply related_visit_fields.
Qed.

Lemma related_visit_leaf c : related R (visit_leaf c).
Proof. apply related_generic_visit, Forall_nil_2. Qed.

Lemma related_visit_leaves ops :
  related R (visit_fields (visit_leaf <$> ops)).
Proof.
  apply related_visit_fields, Forall_fmap, Forall_forall.
  intros c _. apply related_visit_leaf.
Qed.

Lemma related_check_Attribute value attr :
  related R (check_Attribute value attr).
Proof.
  destruct value; try apply related_raise; [apply related_ret|].
  simpl. apply related_bind; [apply R_names_getitem|].
  intros obj. case_bool_decide; [apply related_ret|apply related_raise].
Qed.

Lemma related_bind_target target iter visit_iter :
  related R visit_iter →
  related R (bind_target target
    (_get_iter_of py_eval (generic_visit ast_Expression [visit_iter])
                  (Expression iter))).
Proof.
  intros Hv. destruct target; try apply related_raise.
  simpl. apply related_bind; [|intros; apply R_names_setitem].
  apply related_bind; [|intros; apply related_lift].
  apply related_bind; [|intros; apply R_compile_eval].
  apply related_generic_visit, Forall_cons_2; [done|apply Forall_nil_2].
Qed.

Lemma related_visit_list (l : list node) :
  Forall (λ n, related R (visit py_eval n)) l →
  related R (visit_list (visit py_eval) l).
Proof.
  induction 1; simpl; [apply related_ret|].
  apply related_bind; auto.
Qed.

Lemma related_visit_opt (o : option node) :
  from_option (λ n, related R (visit py_eval n)) True o →
  related R (visit_opt (visit py_eval) o).
Proof. destruct o; simpl; [done|]. intros _. apply related_ret. Qed.

Lemma visit_related n : related R (visit py_eval n).
Proof.
  induction n using node_ind; simpl.
  all: repeat match goal with
       | H : list_all _ _ _ |- _ => apply list_all_Forall in H
       | H : option_all _ _ _ |- _ => apply option_all_from_option in H
       end.
  all: try (apply related_bind;
            [first [ apply R_check_Name
                   | apply related_check_Attribute
                   | by apply related_bind_target ]
            | intros _]).
  all: apply related_generic_visit; repeat apply Forall_cons_2;
    try apply Forall_nil_2.
  all: try apply related_visit_leaf; try apply related_visit_leaves.
  all: try (by apply related_visit_list).
  all: try (by apply related_visit_opt).
  all: assumption.
Qed.

Lemma safe_eval_ast_related tree : related R (safe_eval_ast py_eval tree).
Proof.
  apply related_bind; [apply visit_related|]. intros _. apply R_compile_eval.
Qed.
End Visit_related.

Section Fails.
Context {A B : Type} (I : state → Prop).

Lemma fails_raise (e : exn) : fails_from I (@raise A e).
Proof. intros st _. by exists e. Qed.

Lemma fails_bind_l (m : M A) (k : A → M B) :
  fails_from I m → fails_from I (m ≫= k).
Proof.
  intros Hm st H. unfold mbind, M_bind.
  destruct (Hm st H) as [e He].
  destruct (m st) as [[a|e'] st']; simpl in *; simplify_eq. by exists e.
Qed.

Lemma fails_bind_r (m : M A) (k : A → M B) :
  preserves I m → (∀ a, fails_from I (k a)) → fails_from I (m ≫= k).
Proof.
  intros Hm Hk st H. unfold mbind, M_bind.
  specialize (Hm st H).
  destruct (m st) as [[a|e] st']; simpl in *; [by apply Hk|by exists e].
Qed.
End Fails.

Lemma Exists_subnodes (Q T P : node → Prop) (l : list node) (t : node) :
  Forall (λ n, (∀ m, m ∈ subnodes n → Q m) →
               (∃ t, t ∈ subnodes n ∧ T t) → P n) l →
  (∀ m, m ∈ l ≫= subnodes → Q m) →
  t ∈ l ≫= subnodes → T t → Exists P l.
Proof.
  intros H HQ Ht HT. apply list_elem_of_bind in Ht as (n & Ht & Hn).
  apply Exists_exists. exists n. split; [done|].
  rewrite Forall_forall in H. apply H; [done| |by exists t].
  intros m Hm. apply HQ, list_elem_of_bind. eauto.
Qed.

Section Visit_fails.
Variable py_eval : node → gmap string value → res value.
Variable I : state → Prop.
Variable Bd : string → node → Prop.
Hypothesis I_log : ∀ id it st,
  Bd id it → I st → I (log_executed (Expression it) st).
Hypothesis I_alloc : ∀ id it v st, Bd id it → I st → I (alloc_name id v st).

Lemma fails_check_allowed c :
  isinstance c _ALLOWED_NODES = false → fails_from I (check_allowed c).
Proof. intros H. unfold check_allowed. rewrite H. apply fails_raise. Qed.

Lemma fails_visit_fields fields :
  Forall (preserves I) fields → Exists (fails_from I) fields →
  fails_from I (visit_fields fields).
Proof.
  intros Hp He. induction He as [f fields Hf|f fields He IH]; simpl.
  - by apply fails_bind_l.
  - apply Forall_cons in Hp as [Hf Hp]. apply fails_bind_r; auto.
Qed.

Lemma fails_generic_visit c fields :
  Forall (preserves I) fields → Exists (fails_from I) fields →
  fails_from I (generic_visit c fields).
Proof.
  intros Hp He. apply fails_bind_r; [apply preserves_check_allowed|].
  intros _. by apply fails_visit_fields.
Qed.

Lemma fails_generic_visit_class c fields :
  isinstance c _ALLOWED_NODES = false →
  fails_from I (generic_visit c fields).
Proof. intros H. by apply fails_bind_l, fails_check_allowed. Qed.

Lemma fails_visit_list (l : list node) :
  Forall (λ n, preserves I (visit py_eval n)) l →
  Exists (λ n, fails_from I (visit py_eval n)) l →
  fails_from I (visit_list (visit py_eval) l).
Proof.
  intros Hp He. induction He as [f fields Hf|f fields He IH]; simpl.
  - by apply fails_bind_l.
  - apply Forall_cons in Hp as [Hf Hp]. apply fails_bind_r; auto.
Qed.

Lemma visit_list_preserves (l : list node) :
  (∀ m, m ∈ l ≫= subnodes → bound_ok Bd m) →
  preserves I (visit_list (visit py_eval) l).
Proof.
  intros HG. apply preserves_visit_list, Forall_forall. intros n Hn.
  apply (visit_preserves py_eval I Bd); [done..|].
  intros m Hm. apply HG, list_elem_of_bind. eauto.
Qed.

Lemma visit_opt_preserves (o : option node) :
  (∀ m, m ∈ from_option subnodes [] o → bound_ok Bd m) →
  preserves I (visit_opt (visit py_eval) o).
Proof.
  intros HG. destruct o; simpl; [|apply preserves_ret].
  by apply (visit_preserves py_eval I Bd).
Qed.

(** The fields of a node keep [I] *)
Ltac fields_preserve HG :=
  repeat apply Forall_cons_2; try apply Forall_nil_2;
  first
    [ apply preserves_visit_leaf
    | apply preserves_visit_leaves
    | apply visit_list_preserves; intros ? ?; apply HG; in_subnodes
    | apply visit_opt_preserves; intros ? ?; apply HG; in_subnodes
    | apply (visit_preserves py_eval I Bd); [done..|];
      intros ? ?; apply HG; in_subnodes ].

Ltac some_field_fails :=
  first [ apply Exists_cons_hd; assumption
        | apply Exists_cons_tl; some_field_fails ].

Variable T : node → Prop.
Hypothesis T_fails : ∀ t,
  T t → (∀ m, m ∈ subnodes t → bound_ok Bd m) →
  fails_from I (visit py_eval t).

Lemma visit_list_fails (l : list node) (t : node) :
  Forall (λ n, (∀ m, m ∈ subnodes n → bound_ok Bd m) →
               (∃ t, t ∈ subnodes n ∧ T t) →
               fails_from I (visit py_eval n)) l →
  (∀ m, m ∈ l ≫= subnodes → bound_ok Bd m) →
  t ∈ l ≫= subnodes → T t →
  fails_from I (visit_list (visit py_eval) l).
Proof.
  intros IH HG Ht HT. apply fails_visit_list.
  - apply Forall_forall. intros n Hn.
    apply (visit_preserves py_eval I Bd); [done..|].
    intros m Hm. apply HG, list_elem_of_bind. eauto.
  - by eapply Exists_subnodes.
Qed.

Lemma visit_opt_fails (o : option node) (t : node) :
  from_option (λ n, (∀ m, m ∈ subnodes n → bound_ok Bd m) →
                    (∃ t, t ∈ subnodes n ∧ T t) →
                    fails_from I (visit py_eval n)) True o →
  (∀ m, m ∈ from_option subnodes [] o → bound_ok Bd m) →
  t ∈ from_option subnodes [] o → T t →
  fails_from I (visit_opt (visit py_eval) o).
Proof.
  destruct o; simpl; [|intros _ _ Ht; by apply elem_of_nil in Ht].
  intros IH HG Ht HT. apply IH; [done|by exists t].
Qed.

Lemma visit_fails n :
  (∀ m, m ∈ subnodes n → bound_ok Bd m) →
  (∃ t, t ∈ subnodes n ∧ T t) → fails_from I (visit py_eval n).
Proof.
  induction n using node_ind; intros HG (t & Ht & HT).
  all: simpl in Ht; apply elem_of_cons in Ht as [->|Ht]; [by apply T_fails|].
  all: repeat match goal with
       | H : list_all _ _ _ |- _ => apply list_all_Forall in H
       | H : option_all _ _ _ |- _ => apply option_all_from_option in H
       end.
  all: repeat (apply elem_of_app in Ht as [Ht|Ht]).
  all: try (by apply elem_of_nil in Ht).
  all: match goal with
       | IH : _ → _ → fails_from _ (visit _ ?c), Ht : _ ∈ subnodes ?c |- _ =>
           assert (fails_from I (visit py_eval c))
             by (apply IH; [intros ? ?; apply HG; in_subnodes|by exists t])
       | IH : Forall _ ?l, Ht : _ ∈ ?l ≫= subnodes |- _ =>
           assert (fails_from I (visit_list (visit py_eval) l))
             by (apply (visit_list_fails l t); [done| |done..];
                 intros ? ?; apply HG; in_subnodes)
       | IH : from_option _ True ?o, Ht : _ ∈ from_option subnodes [] ?o |- _ =>
           assert (fails_from I (visit_opt (visit py_eval) o))
             by (apply (visit_opt_fails o t); [done| |done..];
                 intros ? ?; apply HG; in_subnodes)
       end.
  all: simpl.
  all: try (apply fails_bind_r;
            [first [ apply preserves_check_Name
                   | apply preserves_check_Attribute
                   | apply (preserves_bind_target py_eval I Bd); [done..| |];
                     [intros id ctx ->; apply (HG _ (list_elem_of_here _ _));
                      simpl; apply list_elem_of_here
                     |apply (visit_preserves py_eval I Bd); [done..|];
                      intros ? ?; apply HG; in_subnodes] ]
            | intros _]).
  all: apply fails_generic_visit; [fields_preserve HG|some_field_fails].
Qed.
End Visit_fails.

(** * The visitor methods as the source has them *)

Lemma bind_ok {A B} (m : M A) (k : A → M B) st a st' :
  m st = (Ok a, st') → (m ≫= k) st = k a st'.
Proof. intros H. unfold mbind, M_bind. by rewrite H. Qed.

Lemma bind_raise {A B} (m : M A) (k : A → M B) st e st' :
  m st = (Raise e, st') → (m ≫= k) st = (Raise e, st').
Proof. intros H. unfold mbind, M_bind. by rewrite H. Qed.

Section Methods.
Variable py_eval : node → gmap string value → res value.

Lemma visit_comprehension_eq target iter ifs is_async :
  visit py_eval (comprehension target iter ifs is_async)
  = visit_comprehension py_eval target iter ifs.
Proof. reflexivity. Qed.

Lemma visit_Attribute_eq value attr ctx :
  visit py_eval (Attribute value attr ctx)
  = visit_Attribute py_eval value attr ctx.
Proof. reflexivity. Qed.

Lemma visit_Name_eq id ctx :
  visit py_eval (Name id ctx) = visit_Name id ctx.
Proof. reflexivity. Qed.

(** Operators and contexts are instances of allow-listed base classes. *)
Lemma visit_leaf_expr_context ctx st :
  ctx ∈ [ast_Load; ast_Store; ast_Del] → visit_leaf ctx st = (Ok (), st).
Proof. intros H. by repeat (apply elem_of_cons in H as [->|H]; [done|]);
  apply elem_of_nil in H. Qed.
End Methods.

Lemma empty_parser_init : __init__ [] [] = Some empty_parser.
Proof. reflexivity. Qed.

(** * Well-formed states

    The names of a parser made by the constructor are bound to objects of
    the store, and stay so: the lookup of a bound name never raises
    [SystemError]. *)

Lemma deepcopy_well_formed variables : ∀ copied h m h1,
  deepcopy variables copied h = Some (m, h1) →
  (∀ id l, copied !! id = Some l → l < length h) →
  ∀ id l, m !! id = Some l → l < length h1.
Proof.
  induction variables as [|[k l0] variables IH]; intros copied h m h1; simpl.
  - intros [= <- <-] Hc. done.
  - destruct (h !! l0) as [v|]; [|done]. intros Hd Hc.
    apply (IH _ _ _ _ Hd). intros id l Hl. rewrite length_app. simpl.
    apply lookup_insert_Some in Hl as [[_ <-]|[_ Hl]]; [lia|].
    specialize (Hc id l Hl). lia.
Qed.

Lemma init_well_formed variables h st :
  __init__ variables h = Some st → well_formed st.
Proof.
  unfold __init__. intros Hinit.
  destruct (deepcopy variables ∅ h) as [[copied h1]|] eqn:Hd; [|done].
  simplify_eq.
  pose proof (deepcopy_well_formed _ _ _ _ _ Hd) as Hwf.
  split; simpl.
  - apply Hwf. intros id l Hl. by rewrite lookup_empty in Hl.
  - intros id l Hl. apply lookup_delete_Some in Hl as [_ Hl].
    revert Hl. apply Hwf. intros id' l' Hl'. by rewrite lookup_empty in Hl'.
Qed.

Lemma visit_well_formed
    (py_eval : node → gmap string value → res value) (n : node) :
  preserves well_formed (visit py_eval n).
Proof.
  apply (visit_preserves py_eval _ (λ _ _, True)); [| |done].
  - intros id it st _ H. exact H.
  - intros id it v st _ [Hn Hs]. split; simpl; intros id' l Hl;
      rewrite length_app; simpl.
    + apply lookup_insert_Some in Hl as [[_ <-]|[_ Hl]]; [lia|].
      specialize (Hn id' l Hl). lia.
    + specialize (Hs id' l Hl). lia.
Qed.

Lemma names_getitem_well_formed (id : string) (st : state) :
  well_formed st → is_Some (names st !! id) →
  ∃ v, names_getitem id st = (Ok v, st).
Proof.
  intros [Hn _] [l Hl]. unfold names_getitem. rewrite Hl.
  destruct (lookup_lt_is_Some_2 (heap st) l (Hn id l Hl)) as [v Hv].
  exists v. by rewrite Hv.
Qed.

(** * The scenarios of the specification (section 8) *)

(** 1. Variables [{"x": 5}]; [x > 3] is true. *)
Example scenario_comparison :
  (st ← __init__ [("x", 0)] [VInt 5];
   Some (safe_eval_ast eval_fragment
           (Expression
              (Compare (Name "x" ast_Load) [ast_Gt] [Constant (CInt 3)]))
           st).1)
  = Some (Ok (VBool true)).
Proof. reflexivity. Qed.

(** 2. Variables [{"items": [1, 2, 3]}]; [[i * 2 for i in items]] is
    [[2, 4, 6]]. *)
Example scenario_comprehension :
  (st ← __init__ [("items", 0)] [VList [VInt 1; VInt 2; VInt 3]];
   Some (safe_eval_ast eval_fragment
           (Expression
              (ListComp (BinOp (Name "i" ast_Load) ast_Mult (Constant (CInt 2)))
                 [comprehension (Name "i" ast_Store) (Name "items" ast_Load)
                    [] false])) st).1)
  = Some (Ok (VList [VInt 2; VInt 4; VInt 6])).
Proof. reflexivity. Qed.

(** 3. Variables [{"cell": cell}]; [cell.cell_type] is ["code"], and
    [cell.missing_field] is refused. *)
Example scenario_attribute :
  (st ← __init__ [("cell", 0)] [cell_code];
   Some (safe_eval_ast eval_fragment
           (Expression (Attribute (Name "cell" ast_Load) "cell_type" ast_Load))
           st).1)
  = Some (Ok (VStr "code"))
  ∧ (st ← __init__ [("cell", 0)] [cell_code];
     Some (safe_eval_ast eval_fragment
             (Expression
                (Attribute (Name "cell" ast_Load) "missing_field" ast_Load))
             st).1)
    = Some (Raise (ValueError_attr ["cell_type"] "missing_field")).
Proof. split; reflexivity. Qed.

(** 4. Variables [{"cells": [code cell, markdown cell]}];
    [[c for c in cells if c.cell_type == 'code']] is the list of the code
    cell. *)
Example scenario_filter :
  (st ← __init__ [("cells", 0)]
          [VList [cell_code; DatabooksBase [("cell_type", VStr "markdown")]]];
   Some (safe_eval_ast eval_fragment
           (Expression
              (ListComp (Name "c" ast_Load)
                 [comprehension (Name "c" ast_Store) (Name "cells" ast_Load)
                    [Compare
                       (Attribute (Name "c" ast_Load) "cell_type" ast_Load)
                       [ast_Eq] [Constant (CStr "code")]]
                    false])) st).1)
  = Some (Ok (VList [cell_code])).
Proof. reflexivity. Qed.

(** 5. No variables; [len(x)] is refused for the unknown name [x]. *)
Example scenario_call_of_unknown :
  (safe_eval_ast eval_fragment
     (Expression (Call (Name "len" ast_Load) [Name "x" ast_Load] []))
     empty_parser).1
  = Raise (ValueError_name "x").
Proof. reflexivity. Qed.

(** * Attribute access on a name that is not a key of [names] *)

(** C10: for an attribute access [a.b] whose base is a simple name [a]
    that is not a key of the parser's name table [names] (bound only as a
    built-in, as in [len.b], or not bound at all), [visit_Attribute] raises
    [KeyError] from its lookup [self.names[a]]: the state is unchanged, the
    base name has not been visited, and the exception is none of the
    diagnostics of the taxonomy (neither UnknownName nor
    DisallowedAttribute). *)
Theorem attribute_base_not_in_names_KeyError
    (py_eval : node → gmap string value → res value)
    (a b : string) (ctx ctx' : cls) (st : state) :
  names st !! a = None →
  visit py_eval (Attribute (Name a ctx) b ctx') st = (Raise (KeyError a), st)
  ∧ diagnostic_of (KeyError a) = None
  ∧ KeyError a ≠ ValueError_name a
  ∧ ∀ allowed, KeyError a ≠ ValueError_attr allowed b.
Proof.
  intros Ha. split; [|done].
  simpl. unfold mbind, M_bind, names_getitem. by rewrite Ha.
Qed.

Lemma attribute_base_not_in_names_KeyError_witness :
  names empty_parser !! "len" = None
  ∧ builtins !! "len" = Some builtin_len
  ∧ visit eval_fragment (Attribute (Name "len" ast_Load) "b" ast_Load)
      empty_parser = (Raise (KeyError "len"), empty_parser).
Proof.
  split; [reflexivity|]. split; [reflexivity|].
  apply (attribute_base_not_in_names_KeyError
           eval_fragment "len" "b" ast_Load ast_Load empty_parser).
  reflexivity.
Defined.

(** C6, at the input where the code departs from it: [len.b] in a parser
    without variables. The name [len] resolves to a built-in function,
    which is not a [DatabooksBase]; the visit raises [KeyError], not the
    [ValueError] of a disallowed attribute. *)
Lemma attribute_of_builtin_raises_KeyError :
  safe_eval_ast eval_fragment
    (Expression (Attribute (Name "len" ast_Load) "b" ast_Load)) empty_parser
  = (Raise (KeyError "len"), empty_parser)
  ∧ diagnostic_of (KeyError "len") ≠ Some DisallowedAttribute.
Proof. split; [reflexivity|discriminate]. Qed.

(** What [visit_Attribute] decides when the base name is a key of [names]
    bound to the object [obj]: the access is accepted exactly when [obj]
    is a [DatabooksBase] with the field, and refused with the
    [ValueError] of a disallowed attribute otherwise. *)
Lemma attribute_of_bound_name
    (py_eval : node → gmap string value → res value)
    (a b : string) (ctx : cls) (st : state) (obj : value) :
  names_getitem a st = (Ok obj, st) →
  ctx ∈ [ast_Load; ast_Store; ast_Del] →
  let fields := match obj with DatabooksBase fs => get_keys fs | _ => [] end in
  visit py_eval (Attribute (Name a ctx) b ast_Load) st
  = if bool_decide (b ∈ fields) then (Ok (), st)
    else (Raise (ValueError_attr fields b), st).
Proof.
  intros Hobj Hctx fields.
  assert (check_Name a st = (Ok (), st)) as Hc.
  { unfold check_Name, valid_names. rewrite bool_decide_true; [done|].
    apply elem_of_union_l, elem_of_dom. unfold names_getitem in Hobj.
    by destruct (names st !! a). }
  assert (visit py_eval (Name a ctx) st = (Ok (), st)) as Hv.
  { rewrite visit_Name_eq. unfold visit_Name.
    rewrite (bind_ok _ _ _ _ _ Hc). unfold generic_visit.
    rewrite (bind_ok _ _ st () st) by done. simpl.
    rewrite (bind_ok _ _ _ _ _ (visit_leaf_expr_context ctx st Hctx)). done. }
  rewrite visit_Attribute_eq. unfold visit_Attribute, check_Attribute.
  destruct (bool_decide (b ∈ fields)) eqn:Hb.
  - rewrite (bind_ok _ _ st () st).
    2: { rewrite (bind_ok _ _ _ _ _ Hobj). fold fields. by rewrite Hb. }
    unfold generic_visit. rewrite (bind_ok _ _ st () st) by done. simpl.
    rewrite (bind_ok _ _ _ _ _ Hv). done.
  - apply bind_raise. rewrite (bind_ok _ _ _ _ _ Hobj). fold fields.
    by rewrite Hb.
Qed.

(** * Function calls *)

(** C2 is false of the code: [len(items)] for [items = [1, 2, 3]] passes
    the validation, is handed to [eval], and the built-in [len] is
    invoked (the value is 3). *)
Lemma call_is_validated_and_executed :
  (st ← __init__ [("items", 0%nat)] [VList [VInt 1; VInt 2; VInt 3]];
   Some (safe_eval_ast eval_fragment len_items st).1) = Some (Ok (VInt 3))
  ∧ (st ← __init__ [("items", 0%nat)] [VList [VInt 1; VInt 2; VInt 3]];
     Some (executed (safe_eval_ast eval_fragment len_items st).2))
    = Some [len_items].
Proof. split; reflexivity. Qed.

(** C2, amended: a call node is an instance of the allow-listed class
    [ast.expr], so the classifier accepts it. A call with positional
    arguments only is validated exactly as its callee followed by its
    arguments are; a call with a keyword argument is rejected with the
    [ValueError] of an invalid node once its callee and its positional
    arguments have been validated, because [ast.keyword] is not
    allow-listed; a tree that has been validated is handed to [compile]
    and [eval]. *)
Theorem call_syntax_allow_listed
    (py_eval : node → gmap string value → res value) :
  isinstance ast_Call _ALLOWED_NODES = true
  ∧ isinstance ast_keyword _ALLOWED_NODES = false
  ∧ (∀ func args st,
       visit py_eval (Call func args []) st
       = (visit py_eval func;; visit_list (visit py_eval) args) st)
  ∧ (∀ func args arg value keywords st,
       visit py_eval (Call func args (keyword arg value :: keywords)) st
       = ((visit py_eval func;; visit_list (visit py_eval) args);;
          raise (ValueError_node ast_keyword)) st)
  ∧ (∀ tree st,
       (visit py_eval tree st).1 = Ok () →
       executed (safe_eval_ast py_eval tree st).2
       = (executed (visit py_eval tree st).2 ++ [tree])%list).
Proof.
  split; [reflexivity|]. split; [reflexivity|]. split; [|split].
  - intros func args st. simpl. unfold generic_visit.
    repeat (unfold mbind, M_bind; simpl).
    destruct (visit py_eval func st) as [[[]|e] st1]; [|done].
    by destruct (visit_list (visit py_eval) args st1) as [[[]|e] st2].
  - intros func args arg value keywords st. simpl. unfold generic_visit.
    repeat (unfold mbind, M_bind; simpl).
    destruct (visit py_eval func st) as [[[]|e] st1]; [|done].
    by destruct (visit_list (visit py_eval) args st1) as [[[]|e] st2].
  - intros tree st Hok. unfold safe_eval_ast, mbind, M_bind.
    by destruct (visit py_eval tree st) as [[[]|e] st1].
Qed.

Lemma call_syntax_allow_listed_witness :
  (visit eval_fragment len_items
     (State {["items" := 0]} {["items" := 0]} [VList [VInt 1]] [])).1
  = Ok ()
  ∧ executed
      (safe_eval_ast eval_fragment len_items
         (State {["items" := 0]} {["items" := 0]} [VList [VInt 1]] [])).2
    = [len_items].
Proof.
  assert ((visit eval_fragment len_items
             (State {["items" := 0]} {["items" := 0]} [VList [VInt 1]] [])).1
          = Ok ()) as Hok by reflexivity.
  split; [exact Hok|].
  rewrite (proj2 (proj2 (proj2 (proj2
             (call_syntax_allow_listed eval_fragment)))) len_items
             (State {["items" := 0]} {["items" := 0]} [VList [VInt 1]] [])
             Hok).
  reflexivity.
Defined.

(** * The shape of a loop variable *)

Lemma dict_setitem_keys k v d k' :
  k' ∈ (dict_setitem k v d).*1 ↔ k' = k ∨ k' ∈ d.*1.
Proof.
  induction d as [|[k0 v0] d IH]; simpl.
  - rewrite list_elem_of_singleton, elem_of_nil. tauto.
  - case_bool_decide; subst; simpl; rewrite !elem_of_cons; [tauto|].
    rewrite IH. tauto.
Qed.

Lemma dict_merge_keys a b k :
  k ∈ (dict_merge a b).*1 ↔ k ∈ a.*1 ∨ k ∈ b.*1.
Proof.
  unfold dict_merge. revert a.
  induction b as [|[k0 v0] b IH]; intros a; simpl.
  - rewrite elem_of_nil. tauto.
  - rewrite IH, dict_setitem_keys, elem_of_cons. tauto.
Qed.

Lemma reduce_dict_merge_keys d ds k :
  k ∈ (reduce dict_merge d ds).*1 ↔ k ∈ d.*1 ∨ ∃ d', d' ∈ ds ∧ k ∈ d'.*1.
Proof.
  unfold reduce. revert d. induction ds as [|d0 ds IH]; intros d; simpl.
  - split; [auto|]. intros [H|(d' & H & _)]; [done|by apply elem_of_nil in H].
  - rewrite IH, dict_merge_keys. split.
    + intros [[H|H]|(d' & H & Hk)]; [auto|right; exists d0|right; exists d'];
        rewrite elem_of_cons; auto.
    + intros [H|(d' & H & Hk)]; [auto|].
      apply elem_of_cons in H as [->|H]; [auto|]. right. eauto.
Qed.

(** C4 is false of the code: for the iterable [[cell, 1]], whose elements
    are not uniformly structured values, the loop variable is bound to a
    synthetic [DatabooksBase] with the fields of [cell], not to the opaque
    value. *)
Lemma mixed_iterable_binds_structured_value :
  (st ← __init__ [("mixed", 0%nat)] [VList [cell_code; VInt 1]];
   Some (names_getitem "c"
           (visit eval_fragment
              (comprehension (Name "c" ast_Store) (Name "mixed" ast_Load)
                 [] false) st).2).1)
  = Some (Ok (DatabooksBase [("cell_type", VStr "code")])).
Proof. reflexivity. Qed.

(** C4, amended: when [visit_comprehension] has read the iterable of a
    generator, the loop variable is bound to a new object. If at least one
    element is a [DatabooksBase], the object is a synthetic [DatabooksBase]
    whose fields are the union of the fields of the elements that are
    [DatabooksBase] (the other elements are ignored); if no element is,
    in particular if the iterable is empty, the object is the opaque
    [Ellipsis], which permits no attribute. *)
Theorem loop_variable_shape
    (py_eval : node → gmap string value → res value)
    (id : string) (ctx : cls) (iter : node) (st st1 : state)
    (iterable : list value) :
  _get_iter py_eval iter st = (Ok iterable, st1) →
  ∃ v st2,
    bind_target (Name id ctx) (_get_iter py_eval iter) st = (Ok (), st2)
    ∧ names_getitem id st2 = (Ok v, st2)
    ∧ ((∀ el, el ∈ iterable → is_DatabooksBase el = false) → v = VEllipsis)
    ∧ ((∃ el, el ∈ iterable ∧ is_DatabooksBase el = true) →
       ∃ fields, v = DatabooksBase fields ∧
         ∀ k, k ∈ get_keys fields ↔
              ∃ fs, DatabooksBase fs ∈ iterable ∧ k ∈ get_keys fs).
Proof.
  intros Hit.
  set (els := filter (λ el, is_DatabooksBase el) iterable).
  set (v := match els with
            | [] => VEllipsis
            | el :: els' =>
                DatabooksBase (reduce dict_merge (dict el) (dict <$> els'))
            end).
  exists v, (alloc_name id v st1). split; [|split; [|split]].
  - unfold bind_target. by rewrite (bind_ok _ _ _ _ _ Hit).
  - unfold names_getitem, alloc_name. simpl.
    rewrite lookup_insert_eq. by rewrite lookup_app_r, Nat.sub_diag.
  - intros Hnone. unfold v. destruct els as [|el els'] eqn:Hels; [done|].
    assert (el ∈ els) as Hel by (rewrite Hels; apply list_elem_of_here).
    apply list_elem_of_filter in Hel as [Hdb Hel].
    rewrite (Hnone el Hel) in Hdb. done.
  - intros (el & Hel & Hdb).
    assert (el ∈ els) as Hin by (apply list_elem_of_filter; rewrite Hdb; done).
    assert (∀ x, x ∈ els ↔ ∃ fs, x = DatabooksBase fs ∧ x ∈ iterable) as Hels.
    { intros x. unfold els. rewrite list_elem_of_filter. split.
      - intros [Hx ?]. destruct x; try done. eauto.
      - intros (fs & -> & ?). done. }
    unfold v. destruct els as [|el0 els']; [by apply elem_of_nil in Hin|].
    eexists. split; [done|]. intros k.
    unfold get_keys. rewrite reduce_dict_merge_keys. split.
    + intros [Hk|(d' & Hd & Hk)].
      * destruct (proj1 (Hels el0) (list_elem_of_here _ _)) as (fs & -> & ?).
        exists fs. done.
      * apply list_elem_of_fmap in Hd as (x & -> & Hx).
        destruct (proj1 (Hels x)) as (fs & -> & ?);
          [by apply list_elem_of_further|]. exists fs. done.
    + intros (fs & Hfs & Hk).
      assert (DatabooksBase fs ∈ el0 :: els') as Hmem by (apply Hels; eauto).
      apply elem_of_cons in Hmem as [<-|Hmem]; [by left|].
      right. exists fs. split; [|done].
      apply list_elem_of_fmap. exists (DatabooksBase fs). done.
Qed.

Lemma loop_variable_shape_witness :
  _get_iter eval_fragment (Name "mixed" ast_Load) mixed_parser
  = (Ok [cell_code; VInt 1],
     log_executed (Expression (Name "mixed" ast_Load)) mixed_parser)
  ∧ ∃ v st2,
      bind_target (Name "c" ast_Store)
        (_get_iter eval_fragment (Name "mixed" ast_Load)) mixed_parser
      = (Ok (), st2)
      ∧ names_getitem "c" st2 = (Ok v, st2)
      ∧ ((∀ el, el ∈ [cell_code; VInt 1] → is_DatabooksBase el = false) →
         v = VEllipsis)
      ∧ ((∃ el, el ∈ [cell_code; VInt 1] ∧ is_DatabooksBase el = true) →
         ∃ fields, v = DatabooksBase fields ∧
           ∀ k, k ∈ get_keys fields ↔
                ∃ fs, DatabooksBase fs ∈ [cell_code; VInt 1]
                      ∧ k ∈ get_keys fs).
Proof.
  split; [reflexivity|].
  apply (loop_variable_shape eval_fragment "c" ast_Store
           (Name "mixed" ast_Load) mixed_parser
           (log_executed (Expression (Name "mixed" ast_Load)) mixed_parser)
           [cell_code; VInt 1]).
  reflexivity.
Defined.

(** * What a validation executes *)

Lemma length_bind_elem {A B} (f : A → list B) (l : list A) (x : A) :
  x ∈ l → length (f x) ≤ length (l ≫= f).
Proof.
  induction 1 as [x l|x y l _ IH]; rewrite bind_cons, length_app; lia.
Qed.

Lemma subnodes_size (n m : node) : m ∈ subnodes n → size m ≤ size n.
Proof.
  unfold size. induction n using node_ind; simpl; intros Hm.
  all: apply elem_of_cons in Hm as [->|Hm]; [simpl; lia|].
  all: repeat match goal with
       | H : list_all _ _ _ |- _ => apply list_all_Forall in H
       | H : option_all _ _ _ |- _ => apply option_all_from_option in H
       end.
  all: repeat (apply elem_of_app in Hm as [Hm|Hm]).
  all: try (by apply elem_of_nil in Hm).
  all: rewrite ?length_app.
  all: try match goal with
       | IH : _ → _ ≤ length (subnodes ?c), Hm : _ ∈ subnodes ?c |- _ =>
           specialize (IH Hm); lia
       | IH : Forall _ ?l, Hm : _ ∈ ?l ≫= subnodes |- _ =>
           apply list_elem_of_bind in Hm as (x & Hm & Hx);
           rewrite Forall_forall in IH; specialize (IH x Hx Hm);
           pose proof (length_bind_elem subnodes l x Hx); lia
       | IH : from_option _ True ?o, Hm : _ ∈ from_option subnodes [] ?o |- _ =>
           destruct o; simpl in *;
           [specialize (IH Hm); lia|by apply elem_of_nil in Hm]
       end.
Qed.

(** The iterable of a generator is a proper part of the tree. *)
Lemma iterable_not_whole_tree (tree : node) (id : string) (it : node) :
  (id, it) ∈ binders tree → Expression it ≠ tree.
Proof.
  intros Hb Heq. apply list_elem_of_bind in Hb as (m & Hb & Hm).
  apply subnodes_size in Hm.
  destruct m; try (by apply elem_of_nil in Hb).
  destruct m1; try (by apply elem_of_nil in Hb).
  apply list_elem_of_singleton in Hb. simplify_eq.
  unfold size in Hm. simpl in Hm. rewrite length_app in Hm. lia.
Qed.

Section Executed.
Variable py_eval : node → gmap string value → res value.

(** A rejected tree is not handed to [compile] and [eval]. *)
Lemma safe_eval_ast_rejected tree st e :
  (visit py_eval tree st).1 = Raise e →
  safe_eval_ast py_eval tree st = (Raise e, (visit py_eval tree st).2).
Proof.
  intros H. unfold safe_eval_ast. apply bind_raise.
  destruct (visit py_eval tree st) as [r st']. simpl in H. by subst.
Qed.

(** The trees a visit executes are iterables of generators of the tree. *)
Lemma visit_executes_iterables tree st :
  ∃ evs, executed (visit py_eval tree st).2 = (executed st ++ evs)%list
    ∧ Forall (λ t, ∃ id it, (id, it) ∈ binders tree ∧ t = Expression it) evs.
Proof.
  apply (visit_preserves py_eval
    (λ st', ∃ evs, executed st' = (executed st ++ evs)%list
      ∧ Forall (λ t, ∃ id it, (id, it) ∈ binders tree ∧ t = Expression it) evs)
    (λ id it, (id, it) ∈ binders tree)).
  - intros id it st' Hb (evs & He & Hevs).
    exists (evs ++ [Expression it])%list. simpl. rewrite He, app_assoc.
    split; [done|]. apply Forall_app. split; [done|].
    apply Forall_singleton. eauto.
  - intros id it v st' _ (evs & He & Hevs). exists evs. done.
  - intros m Hm id it Hb. apply list_elem_of_bind. eauto.
  - exists []. by rewrite app_nil_r.
Qed.
End Executed.

(** A rejected tree: what the caller receives and what has been executed *)
Lemma rejected_tree_executed
    (py_eval : node → gmap string value → res value)
    (tree : node) (st : state) (e : exn) :
  (visit py_eval tree st).1 = Raise e →
  (safe_eval_ast py_eval tree st).1 = Raise e
  ∧ ∃ evs,
      executed (safe_eval_ast py_eval tree st).2 = (executed st ++ evs)%list
      ∧ (tree ∉ evs)
      ∧ Forall (λ t, ∃ id it, (id, it) ∈ binders tree ∧ t = Expression it)
               evs.
Proof.
  intros H. rewrite (safe_eval_ast_rejected py_eval tree st e H). simpl.
  split; [done|].
  destruct (visit_executes_iterables py_eval tree st) as (evs & He & Hevs).
  exists evs. split; [done|]. split; [|done].
  intros Hin. rewrite Forall_forall in Hevs.
  destruct (Hevs tree Hin) as (id & it & Hb & ->).
  by apply (iterable_not_whole_tree _ _ _ Hb).
Qed.




(** * Unknown names *)

(** C7 is false of the code: [len(k=1) + y] in a parser without variables
    holds the unknown name [y], and is rejected for the keyword argument,
    which is visited first. *)
Lemma unknown_name_after_invalid_node :
  (safe_eval_ast eval_fragment
     (Expression
        (BinOp (Call (Name "len" ast_Load) []
                  [keyword (Some "k") (Constant (CInt 1))])
               ast_Add (Name "y" ast_Load))) empty_parser).1
  = Raise (ValueError_node ast_keyword)
  ∧ diagnostic_of (ValueError_node ast_keyword) ≠ Some UnknownName
  ∧ names empty_parser !! "y" = None ∧ builtins !! "y" = None.
Proof. split; [reflexivity|]. split; [discriminate|]. split; reflexivity. Qed.

(** C7, amended: an expression with a name reference whose identifier is
    neither a key of [names] nor a built-in, nor the loop variable of a
    generator of the expression, is rejected and yields no value. The
    exception is that of the first check that fails in the order of the
    visit; [visit_Name] on the reference raises the [ValueError] of an
    unknown name. *)
Theorem unknown_name_rejected
    (py_eval : node → gmap string value → res value)
    (tree : node) (id : string) (ctx : cls) (st : state) :
  Name id ctx ∈ subnodes tree →
  names st !! id = None → builtins !! id = None →
  id ∉ (binders tree).*1 →
  (∃ e, (safe_eval_ast py_eval tree st).1 = Raise e)
  ∧ visit py_eval (Name id ctx) st = (Raise (ValueError_name id), st)
  ∧ diagnostic_of (ValueError_name id) = Some UnknownName.
Proof.
  intros Hin Hn Hb Hfree.
  assert (∀ st', names st' !! id = None →
            visit py_eval (Name id ctx) st' = (Raise (ValueError_name id), st'))
    as Hname.
  { intros st' Hn'. rewrite visit_Name_eq. unfold visit_Name.
    apply bind_raise. unfold check_Name, valid_names.
    rewrite bool_decide_false; [done|].
    rewrite elem_of_union, !elem_of_dom, Hn', Hb.
    intros [[? ?]|[? ?]]; done. }
  split; [|split; [by apply Hname|done]].
  apply fails_bind_l with (I := λ st', names st' !! id = None); [|done].
  apply (visit_fails py_eval _ (λ id' _, id' ≠ id)) with
    (T := λ t, ∃ ctx', t = Name id ctx').
  - intros id' it st' _ H. exact H.
  - intros id' it v st' Hne H. simpl. by rewrite lookup_insert_ne.
  - intros t [ctx' ->] _ st' Hn'. exists (ValueError_name id).
    rewrite visit_Name_eq. unfold visit_Name.
    rewrite (bind_raise _ _ st' (ValueError_name id) st'); [done|].
    unfold check_Name, valid_names. rewrite bool_decide_false; [done|].
    rewrite elem_of_union, !elem_of_dom, Hn', Hb.
    intros [[? ?]|[? ?]]; done.
  - intros m Hm id' it Hbd ->. apply Hfree.
    apply list_elem_of_fmap. exists (id, it). split; [done|].
    apply list_elem_of_bind. eauto.
  - exists (Name id ctx). eauto.
Qed.

Lemma unknown_name_rejected_witness :
  Name "y" ast_Load ∈ subnodes (Expression (Name "y" ast_Load))
  ∧ names empty_parser !! "y" = None
  ∧ builtins !! "y" = None
  ∧ ("y" ∉ (binders (Expression (Name "y" ast_Load))).*1)
  ∧ visit eval_fragment (Name "y" ast_Load) empty_parser
    = (Raise (ValueError_name "y"), empty_parser).
Proof.
  assert (Name "y" ast_Load ∈ subnodes (Expression (Name "y" ast_Load)))
    as Hin by (simpl; apply list_elem_of_further, list_elem_of_here).
  assert ("y" ∉ (binders (Expression (Name "y" ast_Load))).*1)
    as Hfree by (simpl; apply not_elem_of_nil).
  split; [exact Hin|]. split; [reflexivity|]. split; [reflexivity|].
  split; [exact Hfree|].
  apply (unknown_name_rejected eval_fragment
           (Expression (Name "y" ast_Load)) "y" ast_Load empty_parser Hin);
    [reflexivity|reflexivity|exact Hfree].
Defined.

(** * Nodes outside the allow-list *)

Lemma preserves_True {A} (m : M A) : preserves (λ _, True) m.
Proof. intros st _. exact Logic.I. Qed.

(** [generic_visit] rejects a node whose class is not allow-listed. *)
Lemma visit_disallowed_class
    (py_eval : node → gmap string value → res value) (n : node) (st : state) :
  isinstance (class_of n) _ALLOWED_NODES = false →
  visit py_eval n st = (Raise (ValueError_node (class_of n)), st).
Proof. destruct n; simpl; intros H; first [discriminate H|reflexivity]. Qed.

(** A node with a field whose class is not allow-listed is rejected. *)
Lemma visit_disallowed_leaf
    (py_eval : node → gmap string value → res value) (n : node) (c : cls) :
  c ∈ leaves n → isinstance c _ALLOWED_NODES = false →
  fails_from (λ _, True) (visit py_eval n).
Proof.
  intros Hc Hdis.
  assert (fails_from (λ _, True) (visit_leaf c)) as Hleaf
    by (by apply fails_generic_visit_class).
  destruct n; simpl in Hc; try (by apply elem_of_nil in Hc).
  all: try (apply list_elem_of_singleton in Hc as ->).
  all: simpl.
  all: try match goal with
       | |- fails_from _ (check_Name _ ≫= _) =>
           apply fails_bind_r; [apply preserves_True|intros _]
       | |- fails_from _ (check_Attribute _ _ ≫= _) =>
           apply fails_bind_r; [apply preserves_True|intros _]
       end.
  all: apply fails_generic_visit;
    [repeat apply Forall_cons_2; try apply Forall_nil_2; apply preserves_True|].
  all: try (repeat first [apply Exists_cons_hd; assumption|apply Exists_cons_tl];
            fail).
  apply Exists_cons_tl, Exists_cons_hd, fails_visit_fields.
  - apply Forall_forall. intros m _. apply preserves_True.
  - apply Exists_exists. exists (visit_leaf c). split; [|done].
    by apply list_elem_of_fmap_2.
Qed.




(** * The extent of a loop variable *)

Lemma bind_ok_inv {A B} (m : M A) (k : A → M B) st b :
  ((m ≫= k) st).1 = Ok b →
  ∃ a st1, m st = (Ok a, st1) ∧ (m ≫= k) st = k a st1.
Proof.
  unfold mbind, M_bind. destruct (m st) as [[a|e] st1]; [eauto|done].
Qed.

(** A visit only adds objects to the store. *)
Lemma visit_heap_grows
    (py_eval : node → gmap string value → res value) (N : nat) (n : node) :
  preserves (λ st, N ≤ length (heap st)) (visit py_eval n).
Proof.
  apply (visit_preserves py_eval _ (λ _ _, True)); [| |done].
  - intros id it st _ H. exact H.
  - intros id it v st _ H. simpl. rewrite length_app. lia.
Qed.

(** A name bound to an object made after the store had [N] objects stays
    bound to such an object. *)
Lemma visit_keeps_new_binding
    (py_eval : node → gmap string value → res value)
    (N : nat) (id : string) (n : node) :
  preserves (λ st, N ≤ length (heap st)
                   ∧ ∃ l, names st !! id = Some l ∧ N ≤ l)
            (visit py_eval n).
Proof.
  apply (visit_preserves py_eval _ (λ _ _, True)); [| |done].
  - intros id' it st _ H. exact H.
  - intros id' it v st _ (Hn & l & Hl & Hle). simpl. rewrite length_app.
    split; [lia|]. destruct (decide (id' = id)) as [->|Hne].
    + exists (length (heap st)). by rewrite lookup_insert_eq.
    + exists l. by rewrite lookup_insert_ne.
Qed.

(** A reference to a key of [names] passes [visit_Name]. *)
Lemma visit_Name_bound
    (py_eval : node → gmap string value → res value)
    (id : string) (ctx : cls) (st : state) :
  is_Some (names st !! id) → ctx ∈ [ast_Load; ast_Store; ast_Del] →
  visit py_eval (Name id ctx) st = (Ok (), st).
Proof.
  intros Hn Hctx. rewrite visit_Name_eq. unfold visit_Name.
  rewrite (bind_ok _ _ st () st).
  - unfold generic_visit. rewrite (bind_ok _ _ st () st) by done. simpl.
    by rewrite (bind_ok _ _ _ _ _ (visit_leaf_expr_context ctx st Hctx)).
  - unfold check_Name, valid_names. rewrite bool_decide_true; [done|].
    by apply elem_of_union_l, elem_of_dom.
Qed.




(** * Repeated evaluation *)

Section Repeat.
Variable py_eval : node → gmap string value → res value.

(** What has been executed before has no influence on an evaluation. *)
Lemma safe_eval_ast_same_objects tree :
  related same_objects (safe_eval_ast py_eval tree).
Proof.
  apply safe_eval_ast_related.
  - intros id st1 st2 (Hn & Hs & Hh). unfold names_getitem.
    rewrite Hn, Hh. destruct (names st2 !! id) as [l|]; [|done].
    by destruct (heap st2 !! l).
  - intros id st1 st2 (Hn & Hs & Hh). unfold check_Name, valid_names.
    rewrite Hn. by case_bool_decide.
  - intros t st1 st2 (Hn & Hs & Hh). unfold compile_eval, globals. simpl.
    by rewrite Hs, Hh.
  - intros id v st1 st2 (Hn & Hs & Hh). unfold names_setitem, alloc_name.
    simpl. by rewrite Hn, Hs, Hh.
Qed.

(** The visit of a tree without a generator that binds a name leaves the
    state as it is. *)
Lemma visit_without_binder tree st :
  binders tree = [] → (visit py_eval tree st).2 = st.
Proof.
  intros Hb.
  apply (visit_preserves py_eval (λ st', st' = st) (λ _ _, False));
    [done|done| |done].
  intros m Hm id it Hbd.
  assert ((id, it) ∈ binders tree) as Hin by (apply list_elem_of_bind; eauto).
  rewrite Hb in Hin. by apply elem_of_nil in Hin.
Qed.
End Repeat.




(** * Copy on construction *)

Lemma deepcopy_private n0 variables : ∀ copied h m h1,
  deepcopy variables copied h = Some (m, h1) →
  n0 ≤ length h → (∀ id l, copied !! id = Some l → n0 ≤ l) →
  n0 ≤ length h1 ∧ (∀ id l, m !! id = Some l → n0 ≤ l)
  ∧ ∀ l, l < length h → h1 !! l = h !! l.
Proof.
  induction variables as [|[k l0] variables IH]; intros copied h m h1; simpl.
  - intros [= <- <-] Hh Hc. done.
  - destruct (h !! l0) as [v|] eqn:Hv; [|done]. intros Hd Hh Hc.
    apply IH in Hd as (H1 & H2 & H3).
    + split; [done|]. split; [done|]. intros l Hl.
      rewrite H3 by (rewrite length_app; lia). by apply lookup_app_l.
    + rewrite length_app. lia.
    + intros id l Hl. apply lookup_insert_Some in Hl as [[_ <-]|[_ Hl]]; eauto.
Qed.

Lemma names_getitem_state id st : (names_getitem id st).2 = st.
Proof.
  unfold names_getitem. destruct (names st !! id) as [l|]; [|done].
  by destruct (heap st !! l).
Qed.

Lemma check_Name_state id st : (check_Name id st).2 = st.
Proof. unfold check_Name. by case_bool_decide. Qed.

Section Isolation.
Variable py_eval : node → gmap string value → res value.
Variable ast_parse : string → option node.
Variable n0 : nat.

Lemma safe_eval_agree src : related (agree n0) (safe_eval py_eval ast_parse src).
Proof.
  unfold safe_eval. destruct (ast_parse src) as [tree|]; [|apply related_raise].
  apply safe_eval_ast_related.
  - intros id st1 st2 H. rewrite !names_getitem_state. split; [|done].
    destruct H as (Hn & Hs & He & Hl & Hh & Hp1 & Hp2 & Hp3).
    unfold names_getitem. rewrite <- Hn.
    destruct (names st1 !! id) as [l|] eqn:Hid; [|done].
    rewrite <- (Hh l) by (by eapply Hp2). by destruct (heap st1 !! l).
  - intros id st1 st2 H. rewrite !check_Name_state. split; [|done].
    destruct H as (Hn & Hs & He & Hl & Hh & Hp).
    unfold check_Name, valid_names. rewrite Hn. by case_bool_decide.
  - intros t st1 st2 (Hn & Hs & He & Hl & Hh & Hp1 & Hp2 & Hp3).
    unfold compile_eval. simpl. split.
    + f_equal. unfold globals. apply map_eq. intros id.
      rewrite !lookup_omap, <- Hs.
      destruct (scope st1 !! id) as [l|] eqn:Hid; [|done]. simpl.
      apply Hh. by eapply Hp3.
    + unfold agree, private, log_executed. simpl. by rewrite He.
  - intros id v st1 st2 (Hn & Hs & He & Hl & Hh & (Hp1 & Hp2 & Hp3)).
    split; [done|]. unfold names_setitem, alloc_name, agree, private. simpl.
    rewrite Hn, Hl, !length_app, Hl. repeat split; try done.
    + intros l Hle. destruct (decide (l < length (heap st2))) as [Hlt|Hge].
      * rewrite !lookup_app_l by lia. by apply Hh.
      * rewrite !lookup_app_r by lia. by rewrite Hl.
    + lia.
    + intros id' l Hid. apply lookup_insert_Some in Hid as [[_ <-]|[_ Hid]].
      * lia.
      * rewrite <- Hn in Hid. by eapply Hp2.
Qed.

Lemma eval_all_agree srcs : ∀ st1 st2,
  agree n0 st1 st2 →
  eval_all py_eval ast_parse srcs st1 = eval_all py_eval ast_parse srcs st2.
Proof.
  induction srcs as [|src srcs IH]; intros st1 st2 H; simpl; [done|].
  destruct (safe_eval_agree src st1 st2 H) as [Hr Ha].
  rewrite Hr. f_equal. by apply IH.
Qed.
End Isolation.



(** The store does tell a copy from a shared object: a parser state that
    kept the caller's own list (location 0) sees the caller's change. *)
Example shared_object_observes_mutation :
  eval_all eval_fragment parse_x ["x"]
    (State {["x" := 0]} {["x" := 0]} [VList [VInt 1]] [])
  = [Ok (VList [VInt 1])]
  ∧ eval_all eval_fragment parse_x ["x"]
      (State {["x" := 0]} {["x" := 0]} [VList [VInt 1; VInt 2]] [])
    = [Ok (VList [VInt 1; VInt 2])].
Proof. split; reflexivity. Qed.

(** * The guards of the visitor methods *)

(** X1: a generator whose target is not a plain name (a tuple, an
    attribute, a subscript) is refused with the [RuntimeError] of a
    malformed target before its iterable is validated or executed: the
    parser is left as it was. *)
Theorem comprehension_target_not_a_name
    (py_eval : node → gmap string value → res value)
    (target iter : node) (ifs : list node) (is_async : bool) (st : state) :
  class_of target ≠ ast_Name →
  visit py_eval (comprehension target iter ifs is_async) st
  = (Raise (RuntimeError_target (class_of target)), st)
  ∧ diagnostic_of (RuntimeError_target (class_of target))
    = Some MalformedComprehensionTarget.
Proof.
  intros Hc. split; [|done].
  rewrite visit_comprehension_eq. unfold visit_comprehension.
  apply bind_raise. by destruct target.
Qed.

Lemma comprehension_target_not_a_name_witness :
  class_of (Tuple [Name "a" ast_Store; Name "b" ast_Store] ast_Store)
  ≠ ast_Name
  ∧ visit eval_fragment
      (comprehension
         (Tuple [Name "a" ast_Store; Name "b" ast_Store] ast_Store)
         (Name "mixed" ast_Load) [] false) mixed_parser
    = (Raise (RuntimeError_target ast_Tuple), mixed_parser).
Proof.
  split; [discriminate|].
  apply (comprehension_target_not_a_name eval_fragment
           (Tuple [Name "a" ast_Store; Name "b" ast_Store] ast_Store)
           (Name "mixed" ast_Load) [] false mixed_parser).
  discriminate.
Defined.

(** X2: an attribute access whose base is neither a name nor an attribute
    access (a subscript, a call, a constant) is refused with the
    [ValueError] of a disallowed attribute, whatever the base is and
    whatever the attribute: the base is not visited and the parser is
    left as it was. *)
Theorem attribute_base_not_name_or_attribute
    (py_eval : node → gmap string value → res value)
    (value : node) (attr : string) (ctx : cls) (st : state) :
  class_of value ≠ ast_Name → class_of value ≠ ast_Attribute →
  visit py_eval (Attribute value attr ctx) st
  = (Raise (ValueError_attr_base (class_of value)), st)
  ∧ diagnostic_of (ValueError_attr_base (class_of value))
    = Some DisallowedAttribute.
Proof.
  intros Hn Ha. split; [|done].
  rewrite visit_Attribute_eq. unfold visit_Attribute.
  apply bind_raise. by destruct value.
Qed.

Lemma attribute_base_not_name_or_attribute_witness :
  class_of (Subscript (Name "mixed" ast_Load) (Constant (CInt 0)) ast_Load)
  ≠ ast_Name
  ∧ class_of (Subscript (Name "mixed" ast_Load) (Constant (CInt 0)) ast_Load)
    ≠ ast_Attribute
  ∧ visit eval_fragment
      (Attribute
         (Subscript (Name "mixed" ast_Load) (Constant (CInt 0)) ast_Load)
         "cell_type" ast_Load) mixed_parser
    = (Raise (ValueError_attr_base ast_Subscript), mixed_parser).
Proof.
  split; [discriminate|]. split; [discriminate|].
  apply (attribute_base_not_name_or_attribute eval_fragment
           (Subscript (Name "mixed" ast_Load) (Constant (CInt 0)) ast_Load)
           "cell_type" ast_Load mixed_parser); discriminate.
Defined.

(** X3: in a chain of attribute accesses only the first is checked
    against the fields of the base object. The validation of [a.b.c]
    is the validation of [a.b]: every attribute [c] after the first is
    accepted. *)
Theorem attribute_chain_checks_first_only
    (py_eval : node → gmap string value → res value)
    (value : node) (attr attr' : string) (ctx ctx' : cls) (st : state) :
  ctx' ∈ [ast_Load; ast_Store; ast_Del] →
  visit py_eval (Attribute (Attribute value attr ctx) attr' ctx') st
  = visit py_eval (Attribute value attr ctx) st.
Proof.
  intros Hctx.
  rewrite (visit_Attribute_eq py_eval (Attribute value attr ctx)).
  unfold visit_Attribute at 1. simpl check_Attribute.
  rewrite (bind_ok _ _ st () st) by done.
  unfold generic_visit at 1. rewrite (bind_ok _ _ st () st) by done.
  simpl visit_fields.
  destruct (visit py_eval (Attribute value attr ctx) st) as [[[]|e] st1] eqn:Hv.
  - rewrite (bind_ok _ _ _ _ _ Hv).
    rewrite (bind_ok _ _ _ _ _ (visit_leaf_expr_context ctx' st1 Hctx)). done.
  - by rewrite (bind_raise _ _ _ _ _ Hv).
Qed.

Lemma attribute_chain_checks_first_only_witness :
  ast_Load ∈ [ast_Load; ast_Store; ast_Del]
  ∧ visit eval_fragment
      (Attribute (Attribute (Name "x" ast_Load) "f" ast_Load)
         "__class__" ast_Load) empty_parser
    = visit eval_fragment (Attribute (Name "x" ast_Load) "f" ast_Load)
        empty_parser.
Proof.
  split; [apply list_elem_of_here|].
  apply (attribute_chain_checks_first_only eval_fragment
           (Name "x" ast_Load) "f" "__class__" ast_Load ast_Load
           empty_parser).
  apply list_elem_of_here.
Defined.

(** X4: the class test of [generic_visit] against the forty-nine entries
    of [_ALLOWED_NODES] is the test against eleven of them: every other
    entry is a subclass of one of these, and so is every class of
    expression, operator and context that the tuple does not list
    ([ast.Call], [ast.Attribute], [ast.Lambda], [ast.Mult], ..). *)
Theorem allow_list_is_its_base_classes (c : cls) :
  isinstance c _ALLOWED_NODES
  = isinstance c [ast_expr; ast_expr_context; ast_boolop; ast_operator;
                  ast_unaryop; ast_cmpop; ast_slice; ast_comprehension;
                  ast_Expression; ast_For; ast_Expr].
Proof. by destruct c. Qed.

(** * The order of the fields of a comprehension *)

Lemma visit_ListComp_single
    (py_eval : node → gmap string value → res value)
    (elt g : node) (st : state) :
  visit py_eval (ListComp elt [g]) st
  = match visit py_eval g st with
    | (Ok _, st1) => visit py_eval elt st1
    | (Raise e, st1) => (Raise e, st1)
    end.
Proof.
  simpl. unfold generic_visit.
  repeat (unfold mbind, M_bind, mret, M_ret; simpl).
  destruct (visit py_eval g st) as [[[]|e] st1]; [|done].
  by destruct (visit py_eval elt st1) as [[[]|e] st2].
Qed.

Lemma generator_binds_target
    (py_eval : node → gmap string value → res value)
    (id : string) (ctx : cls) (iter : node) (ifs : list node)
    (is_async : bool) (st : state) :
  (visit py_eval (comprehension (Name id ctx) iter ifs is_async) st).1
  = Ok () →
  is_Some (names (visit py_eval
                    (comprehension (Name id ctx) iter ifs is_async) st).2
           !! id).
Proof.
  intros Hok.
  rewrite visit_comprehension_eq in *. unfold visit_comprehension in *.
  apply bind_ok_inv in Hok as ([] & st2 & Hbind & ->).
  unfold bind_target in Hbind.
  destruct (_get_iter py_eval iter st) as [[iterable|e] st1] eqn:Hit.
  2: { by rewrite (bind_raise _ _ _ _ _ Hit) in Hbind. }
  rewrite (bind_ok _ _ _ _ _ Hit) in Hbind.
  unfold names_setitem in Hbind. simplify_eq.
  set (v := match filter _ iterable with [] => _ | _ => _ end).
  assert (0 ≤ length (heap (alloc_name id v st1))
          ∧ ∃ l, names (alloc_name id v st1) !! id = Some l ∧ 0 ≤ l) as Hnew.
  { split; [lia|]. exists (length (heap st1)). simpl.
    rewrite lookup_insert_eq. split; [done|lia]. }
  destruct (proj2 (preserves_generic_visit
             (λ st', 0 ≤ length (heap st')
                     ∧ ∃ l, names st' !! id = Some l ∧ 0 ≤ l)
             ast_comprehension
             [visit py_eval (Name id ctx); visit py_eval iter;
              visit_list (visit py_eval) ifs]
             ltac:(repeat apply Forall_cons_2; try apply Forall_nil_2;
                   [apply visit_keeps_new_binding
                   |apply visit_keeps_new_binding
                   |apply preserves_visit_list, Forall_forall; intros n _;
                    apply visit_keeps_new_binding])
             _ Hnew)) as (l & Hl & _).
  by exists l.
Qed.

(** X5: the generators of a comprehension are visited before its element,
    so the element may use the loop variable: a list comprehension whose
    element is its loop variable passes the validation exactly when its
    generator does, with the same exception and the same state
    otherwise, whether or not the name was known before. *)
Theorem comprehension_element_sees_loop_variable
    (py_eval : node → gmap string value → res value)
    (id : string) (ctx : cls) (iter : node) (ifs : list node)
    (is_async : bool) (st : state) :
  visit py_eval
    (ListComp (Name id ast_Load)
       [comprehension (Name id ctx) iter ifs is_async]) st
  = visit py_eval (comprehension (Name id ctx) iter ifs is_async) st.
Proof.
  rewrite visit_ListComp_single.
  pose proof (generator_binds_target py_eval id ctx iter ifs is_async st)
    as Hb.
  destruct (visit py_eval (comprehension (Name id ctx) iter ifs is_async) st)
    as [[[]|e] st1]; [|done].
  apply visit_Name_bound; [by apply Hb|apply list_elem_of_here].
Qed.

(** * Evaluation and the scope *)



(** A visit changes no object of the store and no entry of [scope]. *)
Lemma visit_keeps_objects
    (py_eval : node → gmap string value → res value)
    (st0 : state) (n : node) :
  preserves (λ st, scope st = scope st0
                   ∧ length (heap st0) ≤ length (heap st)
                   ∧ ∀ l, l < length (heap st0) →
                          heap st !! l = heap st0 !! l)
            (visit py_eval n).
Proof.
  apply (visit_preserves py_eval _ (λ _ _, True)); [| |done].
  - intros id it st _ H. exact H.
  - intros id it v st _ (Hs & Hlen & Hh). simpl. rewrite length_app.
    split; [done|]. split; [lia|]. intros l Hl.
    rewrite lookup_app_l by lia. by apply Hh.
Qed.

Lemma globals_unchanged (st0 st : state) :
  well_formed st0 → scope st = scope st0 →
  (∀ l, l < length (heap st0) → heap st !! l = heap st0 !! l) →
  globals st = globals st0.
Proof.
  intros [_ Hwf] Hs Hh. unfold globals. apply map_eq. intros k.
  rewrite !lookup_omap, Hs.
  destruct (scope st0 !! k) as [l|] eqn:Hk; simpl; [|done].
  apply Hh. by eapply Hwf.
Qed.





(** * Attributes of names *)

(** X9: an attribute access on a name of [names] is accepted exactly
    when the object of the name is a [DatabooksBase] with the attribute
    among its fields; the parser is left as it was either way, and what
    is raised otherwise is the [ValueError] of a disallowed attribute
    with the fields of the object. *)
Theorem attribute_accepted_iff_declared_field
    (py_eval : node → gmap string value → res value)
    (a b : string) (ctx : cls) (st : state) (obj : value) :
  names_getitem a st = (Ok obj, st) →
  ctx ∈ [ast_Load; ast_Store; ast_Del] →
  ((visit py_eval (Attribute (Name a ctx) b ast_Load) st).1 = Ok ()
   ↔ ∃ fs, obj = DatabooksBase fs ∧ b ∈ get_keys fs)
  ∧ (visit py_eval (Attribute (Name a ctx) b ast_Load) st).2 = st
  ∧ ∀ e, (visit py_eval (Attribute (Name a ctx) b ast_Load) st).1 = Raise e →
         diagnostic_of e = Some DisallowedAttribute.
Proof.
  intros Hobj Hctx.
  rewrite (attribute_of_bound_name py_eval a b ctx st obj Hobj Hctx).
  case_bool_decide as Hb; simpl.
  - split; [|split; [done|by intros e]].
    split; [intros _|done]. destruct obj; try by apply elem_of_nil in Hb.
    eauto.
  - split; [|split; [done|by intros e [= <-]]].
    split; [done|]. intros (fs & -> & Hin). done.
Qed.

Lemma attribute_accepted_iff_declared_field_witness :
  names_getitem "x" (State {["x" := 0]} {["x" := 0]} [cell_code] [])
  = (Ok cell_code, State {["x" := 0]} {["x" := 0]} [cell_code] [])
  ∧ ast_Load ∈ [ast_Load; ast_Store; ast_Del]
  ∧ ((visit eval_fragment
        (Attribute (Name "x" ast_Load) "cell_type" ast_Load)
        (State {["x" := 0]} {["x" := 0]} [cell_code] [])).1 = Ok ()
     ↔ ∃ fs, cell_code = DatabooksBase fs ∧ "cell_type" ∈ get_keys fs).
Proof.
  split; [reflexivity|]. split; [apply list_elem_of_here|].
  apply (attribute_accepted_iff_declared_field eval_fragment
           "x" "cell_type" ast_Load
           (State {["x" := 0]} {["x" := 0]} [cell_code] []) cell_code);
    [reflexivity|apply list_elem_of_here].
Defined.

(** The fields of the object a loop variable is bound to *)
Lemma loop_object_fields (iterable : list value) (k : string) :
  k ∈ match
        match filter (λ el, is_DatabooksBase el) iterable with
        | [] => VEllipsis
        | el :: els =>
            DatabooksBase (reduce dict_merge (dict el) (dict <$> els))
        end
      with
      | DatabooksBase fs => get_keys fs
      | _ => []
      end
  ↔ ∃ fs, DatabooksBase fs ∈ iterable ∧ k ∈ get_keys fs.
Proof.
  set (els := filter (λ el, is_DatabooksBase el) iterable).
  assert (∀ x, x ∈ els ↔ ∃ fs, x = DatabooksBase fs ∧ x ∈ iterable) as Hels.
  { intros x. unfold els. rewrite list_elem_of_filter. split.
    - intros [Hx ?]. destruct x; try done. eauto.
    - intros (fs & -> & ?). done. }
  destruct els as [|el0 els'].
  - split; [by intros H; apply elem_of_nil in H|].
    intros (fs & Hfs & _).
    assert (DatabooksBase fs ∈ @nil value) as H by (apply Hels; eauto).
    by apply elem_of_nil in H.
  - unfold get_keys. rewrite reduce_dict_merge_keys. split.
    + intros [Hk|(d' & Hd & Hk)].
      * destruct (proj1 (Hels el0) (list_elem_of_here _ _)) as (fs & -> & ?).
        exists fs. done.
      * apply list_elem_of_fmap in Hd as (x & -> & Hx).
        destruct (proj1 (Hels x)) as (fs & -> & ?);
          [by apply list_elem_of_further|]. exists fs. done.
    + intros (fs & Hfs & Hk).
      assert (DatabooksBase fs ∈ el0 :: els') as Hmem by (apply Hels; eauto).
      apply elem_of_cons in Hmem as [<-|Hmem]; [by left|].
      right. exists fs. split; [|done].
      apply list_elem_of_fmap. exists (DatabooksBase fs). done.
Qed.

(** X10: once [visit_comprehension] has bound the loop variable of a
    generator, an attribute of the loop variable is accepted exactly
    when it is a field of at least one [DatabooksBase] element of the
    iterable: a field that only some of the elements have passes the
    validation. *)
Theorem loop_variable_attribute
    (py_eval : node → gmap string value → res value)
    (id f : string) (ctx ctx' : cls) (iter : node) (st st1 : state)
    (iterable : list value) :
  _get_iter py_eval iter st = (Ok iterable, st1) →
  ctx' ∈ [ast_Load; ast_Store; ast_Del] →
  ∃ st2,
    bind_target (Name id ctx) (_get_iter py_eval iter) st = (Ok (), st2)
    ∧ ((visit py_eval (Attribute (Name id ctx') f ast_Load) st2).1 = Ok ()
       ↔ ∃ fs, DatabooksBase fs ∈ iterable ∧ f ∈ get_keys fs).
Proof.
  intros Hit Hctx.
  set (v := match filter (λ el, is_DatabooksBase el) iterable with
            | [] => VEllipsis
            | el :: els =>
                DatabooksBase (reduce dict_merge (dict el) (dict <$> els))
            end).
  exists (alloc_name id v st1). split.
  { unfold bind_target. by rewrite (bind_ok _ _ _ _ _ Hit). }
  assert (names_getitem id (alloc_name id v st1)
          = (Ok v, alloc_name id v st1)) as Hobj.
  { unfold names_getitem, alloc_name. simpl.
    rewrite lookup_insert_eq. by rewrite lookup_app_r, Nat.sub_diag. }
  rewrite (attribute_of_bound_name py_eval id f ctx' _ v Hobj Hctx).
  rewrite <- (loop_object_fields iterable f). fold v.
  case_bool_decide; simpl; split; done.
Qed.

Lemma loop_variable_attribute_witness :
  _get_iter eval_fragment (Name "mixed" ast_Load) mixed_parser
  = (Ok [cell_code; VInt 1],
     log_executed (Expression (Name "mixed" ast_Load)) mixed_parser)
  ∧ ast_Load ∈ [ast_Load; ast_Store; ast_Del]
  ∧ ∃ st2,
      bind_target (Name "c" ast_Store)
        (_get_iter eval_fragment (Name "mixed" ast_Load)) mixed_parser
      = (Ok (), st2)
      ∧ ((visit eval_fragment
            (Attribute (Name "c" ast_Load) "cell_type" ast_Load) st2).1
         = Ok ()
         ↔ ∃ fs, DatabooksBase fs ∈ [cell_code; VInt 1]
                 ∧ "cell_type" ∈ get_keys fs).
Proof.
  split; [reflexivity|]. split; [apply list_elem_of_here|].
  apply (loop_variable_attribute eval_fragment "c" "cell_type"
           ast_Store ast_Load (Name "mixed" ast_Load) mixed_parser
           (log_executed (Expression (Name "mixed" ast_Load)) mixed_parser)
           [cell_code; VInt 1]);
    [reflexivity|apply list_elem_of_here].
Defined.

(** * The constructor *)

Lemma deepcopy_keeps (k : string) variables : ∀ copied h m h1,
  deepcopy variables copied h = Some (m, h1) →
  k ∉ variables.*1 → m !! k = copied !! k.
Proof.
  induction variables as [|[k0 l0] variables IH]; intros copied h m h1; simpl.
  - by intros [= <- <-] _.
  - destruct (h !! l0) as [v|]; [|done]. intros Hd Hk.
    apply not_elem_of_cons in Hk as [Hne Hk].
    rewrite (IH _ _ _ _ Hd Hk). by rewrite lookup_insert_ne.
Qed.

Lemma deepcopy_lookup (k : string) (l : loc) (v : value) variables :
  ∀ copied h m h1,
  deepcopy variables copied h = Some (m, h1) →
  NoDup variables.*1 → (k, l) ∈ variables → h !! l = Some v →
  ∃ l', m !! k = Some l' ∧ length h ≤ l' ∧ h1 !! l' = Some v.
Proof.
  induction variables as [|[k0 l0] variables IH]; intros copied h m h1; simpl.
  - intros _ _ H. by apply elem_of_nil in H.
  - destruct (h !! l0) as [v0|] eqn:Hv0; [|done].
    intros Hd Hnd Hin Hv. apply NoDup_cons in Hnd as [Hk0 Hnd].
    apply elem_of_cons in Hin as [[= <- <-]|Hin].
    + exists (length h). split; [|split; [done|]].
      * rewrite (deepcopy_keeps _ _ _ _ _ _ Hd Hk0).
        by rewrite lookup_insert_eq.
      * destruct (deepcopy_private 0 _ _ _ _ _ Hd) as (_ & _ & Hh);
          [lia|intros; lia|].
        rewrite Hh by (rewrite length_app; simpl; lia).
        rewrite lookup_app_r, Nat.sub_diag by done. simpl. congruence.
    + destruct (IH _ _ _ _ Hd Hnd Hin) as (l' & Hm & Hle & Hl').
      { rewrite lookup_app_l; [done|]. by eapply lookup_lt_Some. }
      exists l'. rewrite length_app in Hle. split; [done|]. split; [lia|done].
Qed.



(** * The exceptions of an evaluation *)

Section Raises.
Context {A B : Type} (I : state → Prop) (Q : exn → Prop).

Lemma raises_ret (a : A) : raises_only I Q (mret a).
Proof. intros st H. by split. Qed.

Lemma raises_raise (e : exn) : Q e → raises_only I Q (@raise A e).
Proof. intros HQ st H. split; [done|]. by intros e' [= <-]. Qed.

Lemma raises_bind (m : M A) (k : A → M B) :
  raises_only I Q m → (∀ a, raises_only I Q (k a)) →
  raises_only I Q (m ≫= k).
Proof.
  intros Hm Hk st H. unfold mbind, M_bind.
  destruct (Hm st H) as [HI HQ].
  destruct (m st) as [[a|e] st']; simpl in *; [by apply Hk|].
  split; [done|]. intros e' [= <-]. by apply HQ.
Qed.
End Raises.

Section Visit_raises.
Variable py_eval : node → gmap string value → res value.
Variable I : state → Prop.
Variable Bd : string → node → Prop.
Variable Q : exn → Prop.
Hypothesis I_log : ∀ id it st,
  Bd id it → I st → I (log_executed (Expression it) st).
Hypothesis I_alloc : ∀ id it v st, Bd id it → I st → I (alloc_name id v st).
Hypothesis I_well_formed : ∀ st, I st → well_formed st.
Hypothesis Q_node : ∀ c,
  isinstance c _ALLOWED_NODES = false → Q (ValueError_node c).
Hypothesis Q_name : ∀ id, Q (ValueError_name id).
Hypothesis Q_attr_base : ∀ c, Q (ValueError_attr_base c).
Hypothesis Q_attr : ∀ allowed attr, Q (ValueError_attr allowed attr).
Hypothesis Q_target : ∀ c, Q (RuntimeError_target c).
Hypothesis Q_key : ∀ id, Q (KeyError id).
Hypothesis Q_eval : ∀ id it st e,
  Bd id it → I st → py_eval (Expression it) (globals st) = Raise e → Q e.
Hypothesis Q_iter : ∀ id it, Bd id it → Q TypeError.

Lemma raises_check_allowed c : raises_only I Q (check_allowed c).
Proof.
  unfold check_allowed. destruct (isinstance _ _) eqn:Hc;
    [apply raises_ret|by apply raises_raise, Q_node].
Qed.

Lemma raises_visit_fields fields :
  Forall (raises_only I Q) fields → raises_only I Q (visit_fields fields).
Proof.
  induction 1; simpl; [apply raises_ret|].
  apply raises_bind; auto.
Qed.

Lemma raises_generic_visit c fields :
  Forall (raises_only I Q) fields → raises_only I Q (generic_visit c fields).
Proof.
  intros H. apply raises_bind; [apply raises_check_allowed|].
  intros _. by apply raises_visit_fields.
Qed.

Lemma raises_visit_leaf c : raises_only I Q (visit_leaf c).
Proof. apply raises_generic_visit, Forall_nil_2. Qed.

Lemma raises_visit_leaves ops :
  raises_only I Q (visit_fields (visit_leaf <$> ops)).
Proof.
  apply raises_visit_fields, Forall_fmap, Forall_forall.
  intros c _. apply raises_visit_leaf.
Qed.

Lemma raises_check_Name id : raises_only I Q (check_Name id).
Proof.
  intros st H. unfold check_Name. case_bool_decide; simpl; [done|].
  split; [done|]. intros e [= <-]. apply Q_name.
Qed.

Lemma raises_names_getitem id : raises_only I Q (names_getitem id).
Proof.
  intros st H. unfold names_getitem.
  destruct (names st !! id) as [l|] eqn:Hl; simpl.
  - destruct (I_well_formed st H) as [Hn _].
    destruct (lookup_lt_is_Some_2 (heap st) l (Hn id l Hl)) as [v ->]. done.
  - split; [done|]. intros e [= <-]. apply Q_key.
Qed.

Lemma raises_check_Attribute value attr :
  raises_only I Q (check_Attribute value attr).
Proof.
  destruct value; try (apply raises_raise, Q_attr_base); [apply raises_ret|].
  simpl. apply raises_bind; [apply raises_names_getitem|].
  intros obj. case_bool_decide; [apply raises_ret|apply raises_raise, Q_attr].
Qed.

Lemma raises_bind_target target iter visit_iter :
  (∀ id ctx, target = Name id ctx → Bd id iter) →
  raises_only I Q visit_iter →
  raises_only I Q (bind_target target
    (_get_iter_of py_eval (generic_visit ast_Expression [visit_iter])
                  (Expression iter))).
Proof.
  intros Hb Hv. destruct target; try (apply raises_raise, Q_target).
  simpl. apply raises_bind.
  - apply raises_bind.
    + apply raises_bind.
      * apply raises_generic_visit, Forall_cons_2; [done|apply Forall_nil_2].
      * intros _ st H. simpl. split.
        -- apply (I_log id); [|done]. by eapply Hb.
        -- intros e He. apply (Q_eval id iter st); [by eapply Hb|done..].
    + intros v st H. unfold lift. simpl. split; [done|].
      intros e He. destruct v; simpl in He; simplify_eq; by eapply Q_iter, Hb.
  - intros iterable st H. simpl. split; [|done].
    apply (I_alloc id iter); [|done]. by eapply Hb.
Qed.

Lemma raises_visit_list (l : list node) :
  Forall (λ n, raises_only I Q (visit py_eval n)) l →
  raises_only I Q (visit_list (visit py_eval) l).
Proof.
  induction 1; simpl; [apply raises_ret|].
  apply raises_bind; auto.
Qed.

Lemma raises_visit_opt (o : option node) :
  from_option (λ n, raises_only I Q (visit py_eval n)) True o →
  raises_only I Q (visit_opt (visit py_eval) o).
Proof. destruct o; simpl; [done|]. intros _. apply raises_ret. Qed.

Lemma visit_raises n :
  (∀ m, m ∈ subnodes n → bound_ok Bd m) → raises_only I Q (visit py_eval n).
Proof.
  induction n using node_ind; intros HG; simpl.
  all: repeat match goal with
       | H : list_all _ _ _ |- _ => apply list_all_Forall in H
       | H : option_all _ _ _ |- _ => apply option_all_from_option in H
       end.
  all: try (apply raises_bind;
            [first [ apply raises_check_Name
                   | apply raises_check_Attribute
                   | apply raises_bind_target;
                     [intros id ctx ->; apply (HG _ (list_elem_of_here _ _));
                      simpl; apply list_elem_of_here|] ]
            | intros _]).
  all: try apply raises_generic_visit; repeat apply Forall_cons_2;
    try apply Forall_nil_2.
  all: try apply raises_visit_leaf; try apply raises_visit_leaves.
  all: try (apply raises_visit_list; eapply Forall_subnodes; [eassumption|];
            intros ? ?; apply HG; in_subnodes).
  all: try (apply raises_visit_opt; eapply from_option_subnodes; [eassumption|];
            intros ? ?; apply HG; in_subnodes).
  all: try (match goal with
            | IH : _ → raises_only _ _ (visit _ ?n)
              |- raises_only _ _ (visit _ ?n) =>
                apply IH; intros ? ?; apply HG; in_subnodes
            end).
Qed.
End Visit_raises.

(** What a visit keeps of a well-formed state and what it raises *)
Lemma visit_raises_validation_exception
    (py_eval : node → gmap string value → res value)
    (tree : node) (st : state) :
  well_formed st →
  raises_only
    (λ st', well_formed st' ∧ scope st' = scope st
            ∧ ∀ l, l < length (heap st) → heap st' !! l = heap st !! l)
    (validation_exception py_eval tree (globals st))
    (visit py_eval tree) .
Proof.
  intros Hwf.
  apply (visit_raises py_eval _ (λ id it, (id, it) ∈ binders tree)).
  - intros id it st' _ H. exact H.
  - intros id it v st' _ ([Hn Hs] & Hsc & Hh). split; [split|split].
    + intros id' l Hl. simpl in *. rewrite length_app. simpl.
      apply lookup_insert_Some in Hl as [[_ <-]|[_ Hl]]; [lia|].
      specialize (Hn id' l Hl). lia.
    + intros id' l Hl. simpl in *. rewrite length_app.
      specialize (Hs id' l Hl). lia.
    + done.
    + intros l Hl. simpl. destruct (decide (l < length (heap st'))).
      * rewrite lookup_app_l by done. by apply Hh.
      * specialize (Hh l Hl). apply lookup_lt_is_Some_2 in Hl as [x Hx].
        rewrite Hx in Hh. apply lookup_lt_Some in Hh. lia.
  - intros st' H. apply H.
  - intros c. apply invalid_node.
  - apply invalid_name.
  - apply invalid_attribute_base.
  - apply invalid_attribute.
  - apply invalid_target.
  - apply missing_key.
  - intros id it st' e Hb (Hwf' & Hsc & Hh) He.
    apply (iterable_raises _ _ _ id it); [done|].
    by rewrite <- (globals_unchanged st st').
  - intros id it Hb. by apply (not_iterable _ _ _ id it).
  - intros m Hm id it Hbd. apply list_elem_of_bind. eauto.
Qed.



(** * The function [affirm] *)

Lemma filter_cells_spec (test : value → res bool) (cells l : list value) :
  filter_cells test cells = Ok l →
  sublist l cells
  ∧ (∀ c, c ∈ cells → ∃ b, test c = Ok b)
  ∧ ∀ c, c ∈ l ↔ c ∈ cells ∧ test c = Ok true.
Proof.
  revert l. induction cells as [|c0 cells IH]; intros l; simpl.
  - intros [= <-]. split; [constructor|]. split.
    + intros c H. by apply elem_of_nil in H.
    + intros c. split; [intros H|intros [H _]]; by apply elem_of_nil in H.
  - destruct (test c0) as [keep|e] eqn:Ht; [|done]. simpl.
    destruct (filter_cells test cells) as [cs|e] eqn:Hf; [|done]. simpl.
    intros [= <-]. destruct (IH cs eq_refl) as (Hsub & Hall & Hin).
    split; [|split].
    + destruct keep; [by apply sublist_skip|by apply sublist_cons].
    + intros c Hc. apply elem_of_cons in Hc as [->|Hc]; eauto.
    + intros c. destruct keep.
      * rewrite !elem_of_cons, Hin. split.
        -- intros [->|[? ?]]; auto.
        -- intros [[->|?] ?]; auto.
      * rewrite elem_of_cons, Hin. split.
        -- intros [? ?]; auto.
        -- intros [[->|?] ?]; [congruence|auto].
Qed.

Lemma is_executed_spec (c : value) :
  is_executed c = Ok true
  ↔ cell_type_is "code" c = Ok true
    ∧ ∃ v, py_getattr c "execution_count" = Ok v ∧ v ≠ VNone.
Proof.
  unfold is_executed.
  destruct (cell_type_is "code" c) as [[]|e]; simpl.
  - destruct (py_getattr c "execution_count") as [v|e]; simpl.
    + split.
      * intros H. split; [done|]. exists v. split; [done|].
        intros ->. done.
      * intros [_ (v' & [= <-] & Hv)]. by destruct v.
    + split; [done|]. by intros [_ (v & ? & _)].
  - split; [done|]. by intros [? _].
  - split; [done|]. by intros [? _].
Qed.

Lemma filter_cells_executed (cells code_cells exec_cells : list value) :
  filter_cells (cell_type_is "code") cells = Ok code_cells →
  filter_cells is_executed cells = Ok exec_cells →
  sublist exec_cells code_cells.
Proof.
  revert code_cells exec_cells.
  induction cells as [|c0 cells IH]; intros code_cells exec_cells; simpl.
  - intros [= <-] [= <-]. constructor.
  - destruct (cell_type_is "code" c0) as [is_code|e] eqn:Hc; [|done]. simpl.
    destruct (filter_cells (cell_type_is "code") cells) as [cs|e]; [|done].
    simpl. intros [= <-].
    destruct (is_executed c0) as [keep|e] eqn:He; [|done]. simpl.
    destruct (filter_cells is_executed cells) as [es|e]; [|done].
    simpl. intros [= <-]. specialize (IH cs es eq_refl eq_refl).
    destruct keep.
    + apply is_executed_spec in He as [Hc' _].
      rewrite Hc' in Hc. simplify_eq. by apply sublist_skip.
    + destruct is_code; [by apply sublist_cons|done].
Qed.



Lemma deepcopy_is_Some variables : ∀ copied h,
  (∀ k l, (k, l) ∈ variables → l < length h) →
  is_Some (deepcopy variables copied h).
Proof.
  induction variables as [|[k l] variables IH]; intros copied h Hv; simpl.
  - done.
  - destruct (lookup_lt_is_Some_2 h l) as [v ->].
    { apply (Hv k). apply list_elem_of_here. }
    apply IH. intros k' l' Hin. rewrite length_app.
    specialize (Hv k' l' (list_elem_of_further _ _ _ Hin)). lia.
Qed.

(** The constructor does not fail on keyword arguments. *)
Lemma DatabooksParser_is_Some (variables : list (string * value)) :
  ∃ st, DatabooksParser variables = Some st ∧ well_formed st.
Proof.
  unfold DatabooksParser.
  destruct (__init__ (imap (λ i kv, (kv.1, i)) variables) variables.*2)
    as [st|] eqn:Hinit.
  - exists st. split; [done|]. by eapply init_well_formed.
  - unfold __init__ in Hinit.
    destruct (deepcopy_is_Some (imap (λ i kv, (kv.1, i)) variables) ∅
                variables.*2) as [[m h1] Hd].
    + intros k l Hin. apply elem_of_lookup_imap_1 in Hin
        as (i & kv & [= -> ->] & Hi).
      rewrite length_fmap. by eapply lookup_lt_Some.
    + by rewrite Hd in Hinit.
Qed.

Section Affirm_checks.
Variable py_eval : node → gmap string value → res value.
Variable ast_parse : string → option node.

Lemma is_ok_app (es1 es2 : list string) : ∀ st,
  is_ok py_eval ast_parse (es1 ++ es2)%list st
  = match is_ok py_eval ast_parse es1 st with
    | (Ok oks1, st1) =>
        match is_ok py_eval ast_parse es2 st1 with
        | (Ok oks2, st2) => (Ok (oks1 ++ oks2)%list, st2)
        | (Raise e, st2) => (Raise e, st2)
        end
    | (Raise e, st1) => (Raise e, st1)
    end.
Proof.
  induction es1 as [|expr es1 IH]; intros st; simpl.
  - unfold mret, M_ret.
    by destruct (is_ok py_eval ast_parse es2 st) as [[oks2|e] st2].
  - unfold mbind, M_bind, mret, M_ret.
    destruct (safe_eval py_eval ast_parse expr st) as [[v|e] st0]; [|done].
    rewrite IH.
    destruct (is_ok py_eval ast_parse es1 st0) as [[oks1|e] st1]; [|done].
    by destruct (is_ok py_eval ast_parse es2 st1) as [[oks2|e] st2].
Qed.

Lemma is_ok_eval_all (exprs : list string) : ∀ st oks,
  (is_ok py_eval ast_parse exprs st).1 = Ok oks
  ↔ ∃ vs, eval_all py_eval ast_parse exprs st = Ok <$> vs
          ∧ oks = truthy <$> vs.
Proof.
  induction exprs as [|expr exprs IH]; intros st oks; simpl.
  - split.
    + intros [= <-]. by exists [].
    + intros (vs & Hvs & ->). by destruct vs.
  - unfold mbind, M_bind, mret, M_ret.
    destruct (safe_eval py_eval ast_parse expr st) as [[v|e] st0]; simpl.
    + specialize (IH st0).
      destruct (is_ok py_eval ast_parse exprs st0) as [[oks0|e] st1];
        simpl in *.
      * split.
        -- intros [= <-]. destruct (proj1 (IH oks0) eq_refl) as (vs & Hvs & ->).
           exists (v :: vs). simpl. by rewrite Hvs.
        -- intros (vs & Hvs & ->). destruct vs as [|v' vs]; [done|].
           simpl in Hvs. simplify_eq. f_equal. f_equal.
           assert (Ok oks0 = Ok (truthy <$> vs)) as [= ->]; [|done].
           apply IH. by exists vs.
      * split; [done|]. intros (vs & Hvs & ->).
        destruct vs as [|v' vs]; [done|]. simpl in Hvs. simplify_eq.
        assert (@Raise (list bool) e = Ok (truthy <$> vs)); [|done].
        apply IH. by exists vs.
    + split; [done|]. intros (vs & Hvs & _). by destruct vs.
Qed.

(** X14: [affirm] stops at the first expression that raises. If the
    expressions [es1] evaluate and the next expression raises, the call
    raises that exception whatever the values of [es1] were, and no
    expression after it is evaluated: the parser is left as the failed
    evaluation left it. *)
Theorem affirm_stops_at_first_exception
    (nb : value) (variables : list (string * value)) (st st1 st2 : state)
    (es1 es2 : list string) (oks : list bool) (expr : string) (e : exn) :
  affirm_variables nb = Ok variables →
  DatabooksParser variables = Some st →
  is_ok py_eval ast_parse es1 st = (Ok oks, st1) →
  safe_eval py_eval ast_parse expr st1 = (Raise e, st2) →
  is_ok py_eval ast_parse (es1 ++ expr :: es2)%list st = (Raise e, st2)
  ∧ affirm py_eval ast_parse nb (es1 ++ expr :: es2)%list = Raise e.
Proof.
  intros Hvars Hinit Hes1 Hexpr.
  assert (is_ok py_eval ast_parse (es1 ++ expr :: es2)%list st = (Raise e, st2))
    as Hok.
  { rewrite is_ok_app, Hes1. simpl. by rewrite (bind_raise _ _ _ _ _ Hexpr). }
  split; [done|]. unfold affirm. rewrite Hvars. simpl.
  rewrite Hinit, Hok. done.
Qed.

(** X15: the result of [affirm]. The call returns a truth value exactly
    when every expression evaluates without an exception, one after the
    other on the one parser made from the variables; the value is then
    the conjunction of the truth values of the results, [True] for no
    expression. An expression that is false does not end the
    evaluation of the later ones. *)
Theorem affirm_is_conjunction
    (nb : value) (exprs : list string) (b : bool) :
  affirm py_eval ast_parse nb exprs = Ok b
  ↔ ∃ variables st vs,
      affirm_variables nb = Ok variables
      ∧ DatabooksParser variables = Some st
      ∧ eval_all py_eval ast_parse exprs st = Ok <$> vs
      ∧ b = forallb truthy vs.
Proof.
  assert (∀ vs, forallb id (truthy <$> vs) = forallb truthy vs) as Hall.
  { induction vs as [|v vs IH]; simpl; [done|]. f_equal. apply IH. }
  unfold affirm. split.
  - destruct (affirm_variables nb) as [variables|e]; [|done]. simpl.
    destruct (DatabooksParser variables) as [st|] eqn:Hinit; [|done].
    destruct (is_ok py_eval ast_parse exprs st).1 as [oks|e] eqn:Hok; [|done].
    simpl. intros [= <-].
    apply is_ok_eval_all in Hok as (vs & Hvs & ->).
    exists variables, st, vs. split_and!; [done..|]. apply Hall.
  - intros (variables & st & vs & -> & Hinit & Hvs & ->). simpl.
    rewrite Hinit.
    rewrite (proj2 (is_ok_eval_all exprs st (truthy <$> vs))) by eauto.
    simpl. f_equal. apply Hall.
Qed.
End Affirm_checks.

Lemma affirm_stops_at_first_exception_witness :
  affirm_variables three_cells
  = Ok [("nb", three_cells); ("raw_cells", VList []);
        ("markdown_cells", VList [cell_markdown]);
        ("code_cells", VList [cell_unexecuted; cell_executed]);
        ("exec_cells", VList [cell_executed])]
  ∧ affirm eval_fragment parse_checks three_cells
      (["len(exec_cells) > 0"] ++ "x" :: ["len(exec_cells) > 0"])%list
    = Raise (ValueError_name "x").
Proof.
  split; [reflexivity|].
  refine (proj2 (affirm_stops_at_first_exception eval_fragment parse_checks
                   three_cells _ _ _ _ ["len(exec_cells) > 0"]
                   ["len(exec_cells) > 0"] _ "x" (ValueError_name "x")
                   _ _ _ _)).
  - reflexivity.
  - reflexivity.
  - reflexivity.
  - reflexivity.
Defined.

(** The notebook [three_cells] has an executed cell. *)
Lemma affirm_three_cells :
  affirm eval_fragment parse_checks three_cells ["len(exec_cells) > 0"]
  = Ok true.
Proof. reflexivity. Qed.

(** X16: the names a check may use. In the parser [affirm] makes, the
    names that pass [visit_Name] before any expression is evaluated are
    the five variables and the nine built-ins, and no other. *)
Theorem affirm_valid_names
    (nb : value) (variables : list (string * value)) (st : state) :
  affirm_variables nb = Ok variables →
  DatabooksParser variables = Some st →
  ∀ id, id ∈ valid_names st
        ↔ id ∈ ["nb"; "raw_cells"; "markdown_cells"; "code_cells";
                "exec_cells"; "all"; "any"; "enumerate"; "filter";
                "hasattr"; "len"; "list"; "range"; "sorted"].
Proof.
  unfold affirm_variables.
  destruct (cells_where (cell_type_is "raw") nb) as [raw_cells|e]; [|done].
  destruct (cells_where (cell_type_is "markdown") nb)
    as [markdown_cells|e]; [|done].
  destruct (cells_where (cell_type_is "code") nb) as [code_cells|e]; [|done].
  destruct (cells_where is_executed nb) as [exec_cells|e]; [|done].
  simpl. intros [= <-] [= <-] id. unfold valid_names, builtins. simpl.
  rewrite !dom_insert, !dom_empty.
  rewrite !elem_of_union, !elem_of_singleton, !elem_of_cons, elem_of_nil.
  rewrite !elem_of_empty. tauto.
Qed.

Lemma affirm_valid_names_witness :
  affirm_variables three_cells
  = Ok [("nb", three_cells); ("raw_cells", VList []);
        ("markdown_cells", VList [cell_markdown]);
        ("code_cells", VList [cell_unexecuted; cell_executed]);
        ("exec_cells", VList [cell_executed])]
  ∧ ∃ st,
      DatabooksParser
        [("nb", three_cells); ("raw_cells", VList []);
         ("markdown_cells", VList [cell_markdown]);
         ("code_cells", VList [cell_unexecuted; cell_executed]);
         ("exec_cells", VList [cell_executed])] = Some st
      ∧ ∀ id, id ∈ valid_names st
              ↔ id ∈ ["nb"; "raw_cells"; "markdown_cells"; "code_cells";
                      "exec_cells"; "all"; "any"; "enumerate"; "filter";
                      "hasattr"; "len"; "list"; "range"; "sorted"].
Proof.
  split; [reflexivity|]. eexists. split; [reflexivity|].
  apply (affirm_valid_names three_cells
           [("nb", three_cells); ("raw_cells", VList []);
            ("markdown_cells", VList [cell_markdown]);
            ("code_cells", VList [cell_unexecuted; cell_executed]);
            ("exec_cells", VList [cell_executed])]); reflexivity.
Defined.

(** * What the validation accepts *)

Section Accepts.
Variable py_eval : node → gmap string value → res value.
Variable st : state.

Lemma accepts_visit_fields fields :
  Forall (λ f : M (), f st = (Ok (), st)) fields →
  visit_fields fields st = (Ok (), st).
Proof.
  induction 1 as [|f fields Hf _ IH]; simpl; [done|].
  by rewrite (bind_ok _ _ _ _ _ Hf).
Qed.

Lemma accepts_generic_visit c fields :
  isinstance c _ALLOWED_NODES = true →
  Forall (λ f : M (), f st = (Ok (), st)) fields →
  generic_visit c fields st = (Ok (), st).
Proof.
  intros Hc Hf. unfold generic_visit, check_allowed. rewrite Hc.
  rewrite (bind_ok _ _ st () st) by done. by apply accepts_visit_fields.
Qed.

Lemma accepts_visit_leaves ops :
  forallb (λ c, isinstance c _ALLOWED_NODES) ops = true →
  visit_fields (visit_leaf <$> ops) st = (Ok (), st).
Proof.
  intros Hops. apply accepts_visit_fields, Forall_fmap, Forall_forall.
  intros c Hc. apply accepts_generic_visit; [|apply Forall_nil_2].
  rewrite forallb_forall in Hops. apply Hops. by apply list_elem_of_In.
Qed.

Lemma accepts_visit_list (l : list node) :
  Forall (λ n, visit py_eval n st = (Ok (), st)) l →
  visit_list (visit py_eval) l st = (Ok (), st).
Proof.
  induction 1 as [|n l Hn _ IH]; simpl; [done|].
  by rewrite (bind_ok _ _ _ _ _ Hn).
Qed.

Lemma accepts_visit_opt (o : option node) :
  from_option (λ n, visit py_eval n st = (Ok (), st)) True o →
  visit_opt (visit py_eval) o st = (Ok (), st).
Proof. by destruct o. Qed.

Lemma visit_accepts n :
  (∀ m, m ∈ subnodes n →
        class_of m ≠ ast_comprehension ∧ node_ok st m = true) →
  visit py_eval n st = (Ok (), st).
Proof.
  induction n using node_ind; intros HG.
  all: destruct (HG _ (list_elem_of_here _ _)) as [Hcomp Hok];
    try (by destruct Hcomp).
  all: unfold node_ok in Hok;
    apply andb_true_iff in Hok as [Hok Hn];
    apply andb_true_iff in Hok as [Hcls Hleaves].
  all: repeat match goal with
       | H : list_all _ _ _ |- _ => apply list_all_Forall in H
       | H : option_all _ _ _ |- _ => apply option_all_from_option in H
       end.
  all: simpl.
  all: try match goal with
       | |- (check_Name ?id ≫= _) _ = _ =>
           rewrite (bind_ok _ _ st () st)
             by (unfold check_Name; by rewrite Hn)
       | |- (check_Attribute ?v ?a ≫= _) _ = _ =>
           rewrite (bind_ok _ _ st () st)
       end.
  all: try (apply accepts_generic_visit; [done|];
            repeat apply Forall_cons_2; try apply Forall_nil_2).
  all: try (apply accepts_visit_leaves; exact Hleaves).
  all: try (apply accepts_generic_visit; [|apply Forall_nil_2];
            simpl in Hleaves; by apply andb_true_iff in Hleaves as [? _]).
  all: try (apply accepts_visit_list;
            apply (Forall_subnodes
                     (λ m, class_of m ≠ ast_comprehension
                           ∧ node_ok st m = true)); [assumption|];
            intros ? ?; apply HG; in_subnodes).
  all: try (apply accepts_visit_opt;
            apply (from_option_subnodes
                     (λ m, class_of m ≠ ast_comprehension
                           ∧ node_ok st m = true)); [assumption|];
            intros ? ?; apply HG; in_subnodes).
  all: try (match goal with
            | IH : _ → visit _ ?n _ = _ |- visit _ ?n _ = _ =>
                apply IH; intros ? ?; apply HG; in_subnodes
            end).
  (* the attribute check *)
  destruct n; try done.
  simpl in *. destruct (names_getitem id st) as [[obj|e] st'] eqn:Hget;
    [|done].
  pose proof (names_getitem_state id st) as Hst'. rewrite Hget in Hst'.
  simpl in Hst'. subst st'.
  rewrite (bind_ok _ _ _ _ _ Hget). destruct obj; try done.
  by rewrite Hn.
Qed.
End Accepts.

Lemma forallb_false_elem {A} (f : A → bool) (l : list A) :
  forallb f l = false → ∃ x, x ∈ l ∧ f x = false.
Proof.
  induction l as [|x l IH]; simpl; [done|].
  destruct (f x) eqn:Hx; simpl.
  - intros H. destruct (IH H) as (y & Hy & Hfy). exists y.
    split; [by apply list_elem_of_further|done].
  - intros _. exists x. split; [apply list_elem_of_here|done].
Qed.

Lemma bind_raise_result {A B} (m : M A) (k : A → M B) st e st' :
  m st = (Raise e, st') → ((m ≫= k) st).1 = Raise e.
Proof. intros H. by rewrite (bind_raise _ _ _ _ _ H). Qed.

Lemma fails_from_weaken {A} (I J : state → Prop) (m : M A) :
  (∀ st, I st → J st) → fails_from J m → fails_from I m.
Proof. intros HIJ Hm st H. apply Hm. by apply HIJ. Qed.

Lemma visit_rejects_node
    (py_eval : node → gmap string value → res value) (st : state) (t : node) :
  node_ok st t = false → fails_from (λ st', st' = st) (visit py_eval t).
Proof.
  unfold node_ok. intros Hok.
  apply andb_false_iff in Hok as [Hok|Hn];
    [apply andb_false_iff in Hok as [Hcls|Hleaves]|].
  - intros st' ->. rewrite (visit_disallowed_class py_eval t st Hcls). eauto.
  - assert (∃ c, c ∈ leaves t ∧ isinstance c _ALLOWED_NODES = false)
      as (c & Hc & Hdis).
    { by apply forallb_false_elem. }
    eapply fails_from_weaken; [|by eapply visit_disallowed_leaf]. done.
  - intros st' ->. destruct t; try done; simpl.
    + (* Attribute *)
      destruct t; simpl in Hn; try done.
      all: try (eexists; eapply bind_raise_result; reflexivity).
      match goal with
      | _ : context [names_getitem ?x st] |- _ =>
          destruct (names_getitem x st) as [[obj|e] st'] eqn:Hget;
          pose proof (names_getitem_state x st) as Hst'
      end.
      * rewrite Hget in Hst'. simpl in Hst'. subst st'.
        destruct obj;
          (eexists; eapply bind_raise_result; unfold check_Attribute;
           rewrite (bind_ok _ _ _ _ _ Hget); try rewrite Hn; reflexivity).
      * eexists. eapply bind_raise_result. unfold check_Attribute.
        by rewrite (bind_raise _ _ _ _ _ Hget).
    + (* Name *)
      eexists. eapply bind_raise_result.
      unfold check_Name. by rewrite Hn.
Qed.

(** X17: what the validation accepts. A tree without a generator is
    accepted exactly when every node of it passes the checks of its own
    visit: its class and the classes of its operators and contexts are
    instances of the allow-list, a name is a key of [names] or a
    built-in, and the base of an attribute access is a name of [names]
    bound to a [DatabooksBase] with the attribute as a field, or is an
    attribute access itself. The validation leaves the parser as it
    was. *)
Theorem validation_accepts_iff
    (py_eval : node → gmap string value → res value)
    (tree : node) (st : state) :
  (∀ n, n ∈ subnodes tree → class_of n ≠ ast_comprehension) →
  ((visit py_eval tree st).1 = Ok ()
   ↔ forallb (node_ok st) (subnodes tree) = true)
  ∧ (visit py_eval tree st).2 = st.
Proof.
  intros Hfree.
  assert (∀ m, m ∈ subnodes tree → bound_ok (λ _ _, False) m) as HG.
  { intros m Hm id it Hb. apply (Hfree m Hm).
    destruct m; try done; simpl in Hb; by apply elem_of_nil in Hb. }
  split.
  - split.
    + intros Hok. destruct (forallb (node_ok st) (subnodes tree)) eqn:Hall;
        [done|].
      assert (∃ t, t ∈ subnodes tree ∧ node_ok st t = false) as Hex.
      { by apply forallb_false_elem. }
      destruct (visit_fails py_eval (λ st', st' = st) (λ _ _, False)
                  ltac:(by intros) ltac:(by intros)
                  (λ t, node_ok st t = false)
                  ltac:(intros t Ht _; by apply visit_rejects_node)
                  tree HG Hex st eq_refl) as [e He].
      by rewrite He in Hok.
    + intros Hall. rewrite (visit_accepts py_eval st tree); [done|].
      intros m Hm. split; [by apply Hfree|].
      rewrite forallb_forall in Hall. apply Hall. by apply list_elem_of_In.
  - apply (visit_preserves py_eval (λ st', st' = st) (λ _ _, False));
      [done|done|done|done].
Qed.

Lemma validation_accepts_iff_witness :
  (∀ n, n ∈ subnodes
              (Expression
                 (Compare (Name "x" ast_Load) [ast_Gt] [Constant (CInt 3)])) →
        class_of n ≠ ast_comprehension)
  ∧ ((visit eval_fragment
        (Expression
           (Compare (Name "x" ast_Load) [ast_Gt] [Constant (CInt 3)]))
        x_is_5).1 = Ok ()
     ↔ forallb (node_ok x_is_5)
         (subnodes
            (Expression
               (Compare (Name "x" ast_Load) [ast_Gt] [Constant (CInt 3)])))
       = true)
  ∧ (visit eval_fragment
       (Expression
          (Compare (Name "x" ast_Load) [ast_Gt] [Constant (CInt 3)]))
       x_is_5).2 = x_is_5.
Proof.
  assert (∀ n, n ∈ subnodes
                     (Expression
                        (Compare (Name "x" ast_Load) [ast_Gt]
                           [Constant (CInt 3)])) →
               class_of n ≠ ast_comprehension) as Hfree.
  { simpl. intros n Hn.
    repeat (apply elem_of_cons in Hn as [->|Hn]; [discriminate|]).
    by apply elem_of_nil in Hn. }
  split; [exact Hfree|].
  apply (validation_accepts_iff eval_fragment
           (Expression
              (Compare (Name "x" ast_Load) [ast_Gt] [Constant (CInt 3)]))
           x_is_5 Hfree).
Defined.
